(** * Polymorphic-shape decoders of the pipeline configuration (package yaml)

    A shallow embedding of the six [UnmarshalJSON] methods of package
    [yaml] and of their helpers [toStrings] and [toDurations], together
    with the part of
    the Go libraries they call: [strconv.ParseInt], [encoding/json]'s
    [Unmarshal] at the target types the methods use, and
    [units.RAMInBytes].

    Conventions.
    - A Go [int64] / [uint64] is a [Z]; wrap-around is written out where
      the Go code can wrap.
    - A method with a pointer receiver that returns [error] is a function
      from the input node and the receiver's old value to the receiver's
      new value and an [option error] ([None] is Go's [nil] error).
    - [json.Unmarshal(data, &x)] is a function from the node and the old
      [x] to the new [x] and an [option error]: the target keeps its old
      value wherever Go does not store into it. *)

From Stdlib Require Import ZArith Lia Ascii String.
From stdpp Require Import base list strings.

Set Warnings "-register-all".

Local Open Scope string_scope.
Local Open Scope Z_scope.

(** ** Go values *)

(** A slice: Go tells the nil slice from an allocated one, also when both
    have length 0. *)
Inductive slice (A : Type) : Type :=
| nil_slice
| mk_slice (l : list A).
Arguments nil_slice {A}.
Arguments mk_slice {A} l.

Definition elems {A} (s : slice A) : list A :=
  match s with
  | nil_slice => []
  | mk_slice l => l
  end.

Definition len {A} (s : slice A) : nat := length (elems s).

(** The zero value every Go type has; [new(T)] points to it. *)
Class Zero (T : Type) : Type := zero : T.
#[export] Instance bool_zero : Zero bool := false.
#[export] Instance string_zero : Zero string := EmptyString.
#[export] Instance int64_zero : Zero Z := 0.

(** A dynamic value held in an [interface{}].  JSON decoding produces only
    the first six shapes; [int] and [int64] are values other Go code can
    put into an [interface{}].  A [float64] is kept as the decimal literal
    it was parsed from. *)
Inductive any : Type :=
| nil_any
| bool_any (b : bool)
| float64_any (lit : string)
| string_any (s : string)
| slice_any (l : list any)
| map_any (m : list (string * any))
| int_any (n : Z)
| int64_any (n : Z).

(** What the verb [%T] prints for a dynamic value. *)
Definition typeName (v : any) : string :=
  match v with
  | nil_any => "<nil>"
  | bool_any _ => "bool"
  | float64_any _ => "float64"
  | string_any _ => "string"
  | slice_any _ => "[]interface {}"
  | map_any _ => "map[string]interface {}"
  | int_any _ => "int"
  | int64_any _ => "int64"
  end.

(** [strings.ToLower], on ASCII letters. *)
Definition lower (c : ascii) : ascii :=
  let n := Ascii.N_of_ascii c in
  if ((65 <=? n) && (n <=? 90))%N then Ascii.ascii_of_N (n + 32) else c.

Fixpoint ToLower (s : string) : string :=
  match s with
  | EmptyString => EmptyString
  | String c s' => String (lower c) (ToLower s')
  end.

Inductive NumErr : Type := ErrSyntax | ErrRange.

(** Go [error] values, by the constructor that made them. *)
Inductive error : Type :=
| errors_New (text : string)
| fmt_Errorf (format : string) (args : list any)
| NumError (Func Num : string) (Err : NumErr)
| UnmarshalTypeError (Value GoType : string).

(** ** Package strconv *)

Module strconv.

Definition maxUint64 : Z := 2 ^ 64 - 1.

(** Conversions between integer types keep the low 64 bits. *)
Definition to_uint64 (z : Z) : Z := z mod 2 ^ 64.
Definition to_int64 (z : Z) : Z := (z + 2 ^ 63) mod 2 ^ 64 - 2 ^ 63.

(** ['0' <= c && c <= '9'], [d = c - '0'].  In base 10 a letter is a
    digit that is too large, a syntax error like any other byte. *)
Definition digit_of (c : ascii) : option Z :=
  let n := Z.of_N (Ascii.N_of_ascii c) in
  if (48 <=? n) && (n <=? 57) then Some (n - 48) else None.

Definition digit_char (d : Z) : ascii :=
  Ascii.ascii_of_N (Z.to_N (48 + d)).

(** The loop of [ParseUint(s, 10, 64)]: the value so far, or the value
    and error the function returns from inside the loop. *)
Fixpoint ParseUint_loop (s : string) (n : Z) : Z * option NumErr :=
  match s with
  | EmptyString => (n, None)
  | String c s' =>
      match digit_of c with
      | None => (0, Some ErrSyntax)
      | Some d =>
          let cutoff := maxUint64 / 10 + 1 in
          if cutoff <=? n then (maxUint64, Some ErrRange)
          else
            let n := to_uint64 (n * 10) in
            let n1 := to_uint64 (n + d) in
            if (n1 <? n) || (maxUint64 <? n1) then (maxUint64, Some ErrRange)
            else ParseUint_loop s' n1
      end
  end.

Definition ParseUint (s : string) : Z * option NumErr :=
  match s with
  | EmptyString => (0, Some ErrSyntax)
  | _ => ParseUint_loop s 0
  end.

(** [ParseInt(s, 10, 64)]. *)
Definition ParseInt (s : string) : Z * option error :=
  match s with
  | EmptyString => (0, Some (NumError "ParseInt" s ErrSyntax))
  | String c rest =>
      let '(neg, s1) :=
        if Ascii.eqb c "+"%char then (false, rest)
        else if Ascii.eqb c "-"%char then (true, rest)
        else (false, s) in
      match ParseUint s1 with
      | (_, Some ErrSyntax) => (0, Some (NumError "ParseInt" s ErrSyntax))
      | (un, _) =>
          let cutoff := 2 ^ 63 in
          if negb neg && (cutoff <=? un)
          then (cutoff - 1, Some (NumError "ParseInt" s ErrRange))
          else if neg && (cutoff <? un)
          then (- cutoff, Some (NumError "ParseInt" s ErrRange))
          else
            let n := to_int64 un in
            (if neg then to_int64 (- n) else n, None)
      end
  end.

(** Decimal digits at the front of [s]: their value after [acc], how
    many there were after [count], and the rest of [s]. *)
Fixpoint readDigits (s : string) (acc count : Z) : Z * Z * string :=
  match s with
  | EmptyString => (acc, count, s)
  | String c s' =>
      match digit_of c with
      | Some d => readDigits s' (acc * 10 + d) (count + 1)
      | None => (acc, count, s)
      end
  end.

(** The digits of an exponent; [readFloat] stops adding digits once the
    exponent has reached 10000. *)
Fixpoint readExponent (s : string) (e count : Z) : Z * Z * string :=
  match s with
  | EmptyString => (e, count, s)
  | String c s' =>
      match digit_of c with
      | Some d => readExponent s' (if e <? 10000 then e * 10 + d else e) (count + 1)
      | None => (e, count, s)
      end
  end.

(** [mant * 10^e10] rounds to an infinite float64: it is at least half
    a unit in the last place above the largest finite float64,
    [(2^53 - 1) * 2^971]. *)
Definition float64_overflows (mant e10 : Z) : bool :=
  let limit := (2 ^ 54 - 1) * 2 ^ 970 in
  if 0 <=? e10 then limit <=? mant * 10 ^ e10
  else limit * 10 ^ (- e10) <=? mant.

(** The error of [ParseFloat(s, 64)] for a decimal literal [s] (sign,
    digits, fraction, exponent; the forms a JSON number has): a syntax
    error, a range error when the value overflows float64, or none.
    A value too small for float64 becomes 0 without an error. *)
Definition ParseFloat_err (s : string) : option NumErr :=
  let s1 :=
    match s with
    | String c rest =>
        if Ascii.eqb c "+"%char || Ascii.eqb c "-"%char then rest else s
    | EmptyString => s
    end in
  let '(ip, nint, s2) := readDigits s1 0 0 in
  let '(mant, nfrac, s3) :=
    match s2 with
    | String "."%char rest => readDigits rest ip 0
    | _ => (ip, 0, s2)
    end in
  if nint + nfrac =? 0 then Some ErrSyntax
  else
    let exponent :=
      match s3 with
      | String c rest =>
          if Ascii.eqb c "e"%char || Ascii.eqb c "E"%char then
            let '(esign, s4) :=
              match rest with
              | String "+"%char r => (1, r)
              | String "-"%char r => (-1, r)
              | _ => (1, rest)
              end in
            let '(e, ne, s5) := readExponent s4 0 0 in
            if (ne =? 0) || negb (String.eqb s5 EmptyString) then None
            else Some (esign * e)
          else None
      | EmptyString => Some 0
      end in
    match exponent with
    | None => Some ErrSyntax
    | Some e =>
        if float64_overflows mant (e - nfrac) then Some ErrRange else None
    end.

(** Decimal digits of [u], most significant first, in front of [acc]:
    the loop of [formatBits] for base 10, one digit a round.  A uint64
    has at most 20 digits. *)
Fixpoint formatBits (fuel : nat) (u : Z) (acc : string) : string :=
  match fuel with
  | O => acc
  | S fuel' =>
      if u <? 10 then String (digit_char u) acc
      else formatBits fuel' (u / 10) (String (digit_char (u mod 10)) acc)
  end.

(** [FormatInt(i, 10)], the base-10 rendering of an int64. *)
Definition FormatInt (i : Z) : string :=
  if i <? 0 then String "-"%char (formatBits 20 (to_uint64 (- i)) EmptyString)
  else formatBits 20 (to_uint64 i) EmptyString.

End strconv.

(** ** Package encoding/json *)

(** A JSON value node, as the document decoder hands it to an
    [UnmarshalJSON] method: already checked for syntax, a number still the
    text of its literal, a string already unquoted. *)
Inductive node : Type :=
| JNull
| JBool (b : bool)
| JNumber (lit : string)
| JString (s : string)
| JArray (items : list node)
| JObject (members : list (string * node)).

Module json.

(** How an [UnmarshalTypeError] names the JSON value. *)
Definition describe (j : node) : string :=
  match j with
  | JNull => "null"
  | JBool _ => "bool"
  | JNumber _ => "number"
  | JString _ => "string"
  | JArray _ => "array"
  | JObject _ => "object"
  end.

(** [saveError]: decoding goes on after a value of the wrong type, and
    [Unmarshal] returns the earliest such error. *)
Definition saveError (saved new : option error) : option error :=
  match saved with
  | Some _ => saved
  | None => new
  end.

(** [Unmarshal] into a [string].  JSON null leaves a string, a bool or
    a number as it is and is no error. *)
Definition Unmarshal_string (data : node) (cur : string) : string * option error :=
  match data with
  | JNull => (cur, None)
  | JString s => (s, None)
  | _ => (cur, Some (UnmarshalTypeError (describe data) "string"))
  end.

(** [Unmarshal] into a [bool]. *)
Definition Unmarshal_bool (data : node) (cur : bool) : bool * option error :=
  match data with
  | JNull => (cur, None)
  | JBool b => (b, None)
  | _ => (cur, Some (UnmarshalTypeError (describe data) "bool"))
  end.

(** [Unmarshal] into a value of kind int64 ([int64] itself, or
    [time.Duration], which has no decoding method of its own): the
    number's literal goes through [strconv.ParseInt]. *)
Definition Unmarshal_int64 (goType : string) (data : node) (cur : Z) : Z * option error :=
  match data with
  | JNull => (cur, None)
  | JNumber lit =>
      match strconv.ParseInt lit with
      | (n, None) => (n, None)
      | (_, Some _) => (cur, Some (UnmarshalTypeError ("number " +:+ lit) goType))
      end
  | _ => (cur, Some (UnmarshalTypeError (describe data) goType))
  end.

(** A node as a dynamic value: a number becomes a [float64], and one
    that overflows it is a saved error and leaves nil behind. *)
Fixpoint valueInterface (j : node) : any * option error :=
  match j with
  | JNull => (nil_any, None)
  | JBool b => (bool_any b, None)
  | JNumber lit =>
      match strconv.ParseFloat_err lit with
      | None => (float64_any lit, None)
      | Some _ => (nil_any, Some (UnmarshalTypeError ("number " +:+ lit) "float64"))
      end
  | JString s => (string_any s, None)
  | JArray items =>
      let '(vs, err) :=
        (fix arrayInterface (l : list node) : list any * option error :=
           match l with
           | [] => ([], None)
           | x :: l' =>
               let '(v, e1) := valueInterface x in
               let '(vs, e2) := arrayInterface l' in
               (v :: vs, saveError e1 e2)
           end) items in
      (slice_any vs, err)
  | JObject members =>
      let '(m, err) :=
        (fix objectInterface (l : list (string * node)) : list (string * any) * option error :=
           match l with
           | [] => ([], None)
           | (k, x) :: l' =>
               let '(v, e1) := valueInterface x in
               let '(m, e2) := objectInterface l' in
               ((k, v) :: m, saveError e1 e2)
           end) members in
      (map_any m, err)
  end.

(** The items of an array as dynamic values, with the earliest error. *)
Fixpoint arrayInterface (l : list node) : list any * option error :=
  match l with
  | [] => ([], None)
  | x :: l' =>
      let '(v, e1) := valueInterface x in
      let '(vs, e2) := arrayInterface l' in
      (v :: vs, saveError e1 e2)
  end.

(** The members of an object as dynamic values, with the earliest
    error. *)
Fixpoint objectInterface (l : list (string * node)) : list (string * any) * option error :=
  match l with
  | [] => ([], None)
  | (k, x) :: l' =>
      let '(v, e1) := valueInterface x in
      let '(m, e2) := objectInterface l' in
      ((k, v) :: m, saveError e1 e2)
  end.

(** Every number in the node, at any depth, is one [ParseFloat] takes
    without an error. *)
Fixpoint numbers_fit_float64 (j : node) : bool :=
  match j with
  | JNumber lit =>
      match strconv.ParseFloat_err lit with
      | None => true
      | Some _ => false
      end
  | JArray items => forallb numbers_fit_float64 items
  | JObject members => forallb (fun kx => let '(_, x) := kx in numbers_fit_float64 x) members
  | _ => true
  end.

(** [Unmarshal] into a [[]interface{}]: null stores the nil slice, an
    array stores a slice of its items (an allocated one also when the
    array is empty). *)
Definition Unmarshal_slice_any (data : node) (cur : slice any) : slice any * option error :=
  match data with
  | JNull => (nil_slice, None)
  | JArray items =>
      let '(vs, err) := arrayInterface items in (mk_slice vs, err)
  | _ => (cur, Some (UnmarshalTypeError (describe data) "[]interface {}"))
  end.

(** Keys match field names without regard to letter case. *)
Definition foldName (s : string) : string := ToLower s.

(** The members of an object stored one after the other into a struct
    [o]: [field key] is how the field of that name stores a node, or
    [None] when the struct has no such field and the member is
    skipped. *)
Fixpoint storeMembers {T : Type}
    (field : string -> option (node -> T -> T * option error))
    (members : list (string * node)) (o : T) (saved : option error) : T * option error :=
  match members with
  | [] => (o, saved)
  | (key, x) :: members' =>
      match field (foldName key) with
      | None => storeMembers field members' o saved
      | Some store =>
          let '(o', err) := store x o in
          storeMembers field members' o' (saveError saved err)
      end
  end.

(** [Unmarshal] into a struct with the given fields. *)
Definition Unmarshal_struct {T : Type} (goType : string)
    (field : string -> option (node -> T -> T * option error))
    (data : node) (o : T) : T * option error :=
  match data with
  | JNull => (o, None)
  | JObject members => storeMembers field members o None
  | _ => (o, Some (UnmarshalTypeError (describe data) goType))
  end.

End json.

(** ** Package units (github.com/docker/go-units) *)

Module units.

Definition KiB : Z := 1024.
Definition MiB : Z := 1024 * KiB.
Definition GiB : Z := 1024 * MiB.
Definition TiB : Z := 1024 * GiB.
Definition PiB : Z := 1024 * TiB.

(** The multiplier a (lower-case) suffix stands for: a binary prefix
    letter, alone or followed by "b" or "ib"; a plain byte is no suffix
    or "b". *)
Definition binaryMap (sfx : string) : option Z :=
  if String.eqb sfx EmptyString || String.eqb sfx "b" then Some 1
  else
    match sfx with
    | String c rest =>
        if String.eqb rest EmptyString || String.eqb rest "b" || String.eqb rest "ib" then
          if Ascii.eqb c "k"%char then Some KiB
          else if Ascii.eqb c "m"%char then Some MiB
          else if Ascii.eqb c "g"%char then Some GiB
          else if Ascii.eqb c "t"%char then Some TiB
          else if Ascii.eqb c "p"%char then Some PiB
          else None
        else None
    | EmptyString => None
    end.

(** Modelled from the spec: [units.RAMInBytes] belongs to the go-units
    library and is not among the source files.  Section 4.2: the string
    is a decimal or integer quantity followed by a unit suffix of the
    binary-prefix set ("k"/"K", "m"/"M", "g"/"G", "t"/"T", ..., each
    meaning 1024^n bytes) and denotes the exact byte count as a 64-bit
    integer; an unrecognized suffix or a malformed quantity is an
    error.  The count is computed exactly here and cut to a whole
    number of bytes; a count that does not fit 64 bits is taken as
    malformed.  The value beside an error is -1, as in the library. *)
Definition RAMInBytes (size : string) : Z * option error :=
  let invalid := (-1, Some (fmt_Errorf "invalid size: '%s'" [string_any size])) in
  let '(ip, nint, s1) := strconv.readDigits size 0 0 in
  if nint =? 0 then invalid
  else
    let quantity :=
      match s1 with
      | String "."%char rest =>
          let '(mant, nfrac, s2) := strconv.readDigits rest ip 0 in
          if nfrac =? 0 then None else Some (mant, nfrac, s2)
      | _ => Some (ip, 0, s1)
      end in
    match quantity with
    | None => invalid
    | Some (mant, nfrac, s2) =>
        let sfx :=
          ToLower
            match s2 with
            | String " "%char rest => rest
            | _ => s2
            end in
        match binaryMap sfx with
        | None => (-1, Some (fmt_Errorf "invalid suffix: '%s'" [string_any sfx]))
        | Some mul =>
            let bytes := mant * mul / 10 ^ nfrac in
            if bytes <? 2 ^ 63 then (bytes, None) else invalid
        end
    end.

End units.

(** ** Package yaml: scalars and lists *)

(** [StringorInt.UnmarshalJSON]; the receiver is an int64. *)
Definition StringorInt_UnmarshalJSON (data : node) (s : Z) : Z * option error :=
  match json.Unmarshal_int64 "int64" data zero with
  | (intType, None) => (intType, None)
  | (_, Some _) =>
      match json.Unmarshal_string data zero with
      | (stringType, None) =>
          match strconv.ParseInt stringType with
          | (_, Some err) => (s, Some err)
          | (intType, None) => (intType, None)
          end
      | (_, Some _) => (s, Some (errors_New "failed to unmarshal string or number"))
      end
  end.

(** [MemStringorInt.UnmarshalJSON]; the receiver is an int64. *)
Definition MemStringorInt_UnmarshalJSON (data : node) (s : Z) : Z * option error :=
  match json.Unmarshal_int64 "int64" data zero with
  | (intType, None) => (intType, None)
  | (_, Some _) =>
      match json.Unmarshal_string data zero with
      | (stringType, None) =>
          match units.RAMInBytes stringType with
          | (_, Some err) => (s, Some err)
          | (intType, None) => (intType, None)
          end
      | (_, Some _) => (s, Some (errors_New "failed to unmarshal memory string to integer"))
      end
  end.

(** The loop of [toStrings]: [k] is the index of the next element, [r]
    the slice made before the loop. *)
Fixpoint toStrings_loop (k : nat) (s : list any) (r : list string) : slice string * option error :=
  match s with
  | [] => (mk_slice r, None)
  | v :: s' =>
      match v with
      | string_any sv => toStrings_loop (S k) s' (<[k := sv]> r)
      | _ =>
          (nil_slice,
           Some (fmt_Errorf "cannot unmarshal %v of type %T into a string value" [v; v]))
      end
  end.

Definition toStrings (s : slice any) : slice string * option error :=
  if (len s =? 0)%nat then (nil_slice, None)
  else toStrings_loop 0 (elems s) (replicate (len s) zero).

(** [Stringorslice.UnmarshalJSON]. *)
Definition Stringorslice_UnmarshalJSON (data : node) (s : slice string) : slice string * option error :=
  match json.Unmarshal_string data zero with
  | (stringType, None) => (mk_slice [stringType], None)
  | (_, Some _) =>
      match json.Unmarshal_slice_any data nil_slice with
      | (sliceType, None) =>
          match toStrings sliceType with
          | (_, Some err) => (s, Some err)
          | (parts, None) => (parts, None)
          end
      | (_, Some _) => (s, Some (errors_New "failed to unmarshal string or string array"))
      end
  end.

Section Durations.

(** [time.ParseDuration] is a parameter: the duration a literal denotes
    in nanoseconds, or an error. *)
Variable ParseDuration : string -> Z * option error.

(** The loop of [toDurations].  An [int] has 64 bits, so
    [time.Duration(int64(v))] is [v]. *)
Fixpoint toDurations_loop (k : nat) (s : list any) (r : list Z) : slice Z * option error :=
  match s with
  | [] => (mk_slice r, None)
  | i :: s' =>
      match i with
      | string_any v =>
          match ParseDuration v with
          | (_, Some _) =>
              (nil_slice, Some (fmt_Errorf "cannot unmarshal %v into type duration" [i]))
          | (dur, None) => toDurations_loop (S k) s' (<[k := dur]> r)
          end
      | int_any v => toDurations_loop (S k) s' (<[k := v]> r)
      | int64_any v => toDurations_loop (S k) s' (<[k := v]> r)
      | _ => (nil_slice, Some (fmt_Errorf "cannot unmarshal %v into type duration" [i]))
      end
  end.

Definition toDurations (s : slice any) : slice Z * option error :=
  if (len s =? 0)%nat then (nil_slice, None)
  else toDurations_loop 0 (elems s) (replicate (len s) zero).

(** [Durationorslice.UnmarshalJSON]; a duration is its count of
    nanoseconds. *)
Definition Durationorslice_UnmarshalJSON (data : node) (s : slice Z) : slice Z * option error :=
  match json.Unmarshal_int64 "time.Duration" data zero with
  | (stringType, None) => (mk_slice [stringType], None)
  | (_, Some _) =>
      match json.Unmarshal_slice_any data nil_slice with
      | (sliceType, None) =>
          match toDurations sliceType with
          | (_, Some err) => (s, Some err)
          | (parts, None) => (parts, None)
          end
      | (_, Some _) =>
          (s, Some (errors_New "failed to unmarshal duration string or duration array"))
      end
  end.

End Durations.

(** ** Package yaml: the runtime selector *)

Section Runtime.

(** The nested configurations are declared elsewhere in the package:
    their types, zero values and decoders are parameters.  A pointer to
    one is an [option]: [None] is the nil pointer. *)
Context {RuntimeCloud RuntimeKubernetes RuntimeInstance : Type}.
Context {zero_cloud : Zero RuntimeCloud}.
Context {zero_kubernetes : Zero RuntimeKubernetes}.
Context {zero_instance : Zero RuntimeInstance}.
Variable Unmarshal_RuntimeCloud : node -> RuntimeCloud -> RuntimeCloud * option error.
Variable Unmarshal_RuntimeKubernetes :
  node -> RuntimeKubernetes -> RuntimeKubernetes * option error.
Variable Unmarshal_RuntimeInstance : node -> RuntimeInstance -> RuntimeInstance * option error.

Record Runtime : Type := mkRuntime {
  Cloud : option RuntimeCloud;
  Kubernetes : option RuntimeKubernetes;
  VM : option RuntimeInstance;
  Shell : bool
}.

#[export] Instance Runtime_zero : Zero Runtime :=
  {| Cloud := None; Kubernetes := None; VM := None; Shell := false |}.

(** Storing a node into a pointer field: null stores nil, anything else
    is decoded into what the pointer points to, allocated if need be. *)
Definition store_pointer {T : Type} `{Zero T}
    (Unmarshal_T : node -> T -> T * option error)
    (x : node) (p : option T) : option T * option error :=
  match x with
  | JNull => (None, None)
  | _ => let '(t, err) := Unmarshal_T x (default zero p) in (Some t, err)
  end.

(** The fields of the struct [out2], by their (folded) JSON names. *)
Definition Runtime_field (key : string) : option (node -> Runtime -> Runtime * option error) :=
  if String.eqb key "cloud" then
    Some (fun x o =>
      let '(p, err) := store_pointer Unmarshal_RuntimeCloud x (Cloud o) in
      ({| Cloud := p; Kubernetes := Kubernetes o; VM := VM o; Shell := Shell o |}, err))
  else if String.eqb key "kubernetes" then
    Some (fun x o =>
      let '(p, err) := store_pointer Unmarshal_RuntimeKubernetes x (Kubernetes o) in
      ({| Cloud := Cloud o; Kubernetes := p; VM := VM o; Shell := Shell o |}, err))
  else if String.eqb key "vm" then
    Some (fun x o =>
      let '(p, err) := store_pointer Unmarshal_RuntimeInstance x (VM o) in
      ({| Cloud := Cloud o; Kubernetes := Kubernetes o; VM := p; Shell := Shell o |}, err))
  else if String.eqb key "shell" then
    Some (fun x o =>
      let '(b, err) := json.Unmarshal_bool x (Shell o) in
      ({| Cloud := Cloud o; Kubernetes := Kubernetes o; VM := VM o; Shell := b |}, err))
  else None.

(** [Runtime.UnmarshalJSON]. *)
Definition Runtime_UnmarshalJSON (data : node) (v : Runtime) : Runtime * option error :=
  match json.Unmarshal_string data zero with
  | (out1, Some _) =>
      if String.eqb out1 "cloud" then
        ({| Cloud := Some zero; Kubernetes := Kubernetes v; VM := VM v; Shell := Shell v |}, None)
      else if String.eqb out1 "vm" then
        ({| Cloud := Cloud v; Kubernetes := Kubernetes v; VM := Some zero; Shell := Shell v |}, None)
      else if String.eqb out1 "kubernetes" then
        ({| Cloud := Cloud v; Kubernetes := Some zero; VM := VM v; Shell := Shell v |}, None)
      else if String.eqb out1 "shell" then
        ({| Cloud := Cloud v; Kubernetes := Kubernetes v; VM := VM v; Shell := true |}, None)
      else (v, Some (fmt_Errorf "unknown runtime type: %s" [string_any out1]))
  | (_, None) =>
      match json.Unmarshal_struct "struct" Runtime_field data zero with
      | (out2, Some _) =>
          ({| Cloud := Cloud out2; Kubernetes := Kubernetes out2;
              VM := VM out2; Shell := Shell out2 |}, None)
      | (_, None as err) => (v, err)
      end
  end.

End Runtime.

Arguments Runtime : clear implicits.
Arguments mkRuntime {RuntimeCloud RuntimeKubernetes RuntimeInstance}.

(** ** Package yaml: the workspace selector *)

Record Workspace : Type := mkWorkspace {
  Disabled : bool;
  Path : string
}.

#[export] Instance Workspace_zero : Zero Workspace :=
  {| Disabled := false; Path := EmptyString |}.

(** The fields of the struct [out2], by their (folded) JSON names. *)
Definition Workspace_field (key : string) : option (node -> Workspace -> Workspace * option error) :=
  if String.eqb key "disabled" then
    Some (fun x o =>
      let '(b, err) := json.Unmarshal_bool x (Disabled o) in
      ({| Disabled := b; Path := Path o |}, err))
  else if String.eqb key "path" then
    Some (fun x o =>
      let '(p, err) := json.Unmarshal_string x (Path o) in
      ({| Disabled := Disabled o; Path := p |}, err))
  else None.

(** [Workspace.UnmarshalJSON]. *)
Definition Workspace_UnmarshalJSON (data : node) (v : Workspace) : Workspace * option error :=
  match json.Unmarshal_bool data zero with
  | (out1, Some _) => ({| Disabled := negb out1; Path := Path v |}, None)
  | (_, None) =>
      match json.Unmarshal_struct "struct" Workspace_field data zero with
      | (out2, Some _) => ({| Disabled := Disabled out2; Path := Path out2 |}, None)
      | (_, None as err) => (v, err)
      end
  end.

(** ** Vocabulary of the properties *)

(** The number a string of decimal digits denotes after [acc], without
    any bound; [None] when a byte is no digit. *)
Fixpoint decimal (s : string) (acc : Z) : option Z :=
  match s with
  | EmptyString => Some acc
  | String c s' =>
      match strconv.digit_of c with
      | Some d => decimal s' (acc * 10 + d)
      | None => None
      end
  end.

(** The integer a literal denotes: an optional sign and at least one
    decimal digit, nothing else. *)
Definition int_literal (s : string) : option Z :=
  match s with
  | EmptyString => None
  | String c rest =>
      if Ascii.eqb c "+"%char then
        match rest with
        | EmptyString => None
        | _ => decimal rest 0
        end
      else if Ascii.eqb c "-"%char then
        match rest with
        | EmptyString => None
        | _ => Z.opp <$> decimal rest 0
        end
      else decimal s 0
  end.

(** What one round of the loop of [toDurations] stores for the element
    [i], or [None] where it returns the error. *)
Definition convert_element (ParseDuration : string -> Z * option error) (i : any) : option Z :=
  match i with
  | string_any v =>
      match ParseDuration v with
      | (dur, None) => Some dur
      | (_, Some _) => None
      end
  | int_any v => Some v
  | int64_any v => Some v
  | _ => None
  end.

(** The slice the helpers return for the elements [l]: the nil slice when
    there are none. *)
Definition slice_of {A} (l : list A) : slice A :=
  match l with
  | [] => nil_slice
  | _ => mk_slice l
  end.

(** What a decoder does to its receiver [r] when, for the node at hand,
    it either decodes the value [p] or fails with the error [e]. *)
Definition outcome {T} (o : T + error) (r : T) : T * option error :=
  match o with
  | inl p => (p, None)
  | inr e => (r, Some e)
  end.

(** A duration parser to run the list decoder with: it knows the one
    literal "1s". *)
Definition ParseDuration_1s (s : string) : Z * option error :=
  if String.eqb s "1s" then (1000000000, None)
  else (0, Some (errors_New "time: invalid duration")).

(** * Properties *)

(** ** strconv: parsing the base-10 rendering gives the number back *)

Section strconv_facts.

Import strconv.

Lemma to_uint64_small (z : Z) : 0 <= z <= maxUint64 -> to_uint64 z = z.
Proof.
  unfold to_uint64, maxUint64. intros Hz. apply Z.mod_small. lia.
Qed.

Lemma to_int64_small (z : Z) : - 2 ^ 63 <= z < 2 ^ 63 -> to_int64 z = z.
Proof.
  unfold to_int64. intros Hz.
  rewrite Z.mod_small; lia.
Qed.

Lemma digit_cases (d : Z) :
  0 <= d < 10 ->
  d = 0 \/ d = 1 \/ d = 2 \/ d = 3 \/ d = 4 \/ d = 5 \/ d = 6 \/ d = 7 \/ d = 8 \/ d = 9.
Proof. lia. Qed.

Lemma digit_of_digit_char (d : Z) : 0 <= d < 10 -> digit_of (digit_char d) = Some d.
Proof.
  intros Hd. destruct (digit_cases d Hd) as [-> | H]; [reflexivity |].
  repeat (destruct H as [-> | H]; [reflexivity |]). subst d. reflexivity.
Qed.

Lemma digit_char_not_sign (d : Z) :
  0 <= d < 10 ->
  Ascii.eqb (digit_char d) "+"%char = false /\ Ascii.eqb (digit_char d) "-"%char = false.
Proof.
  intros Hd. destruct (digit_cases d Hd) as [-> | H]; [split; reflexivity |].
  repeat (destruct H as [-> | H]; [split; reflexivity |]). subst d. split; reflexivity.
Qed.

(** One round of the loop of [ParseUint] on a digit that does not
    overflow. *)
Lemma ParseUint_loop_digit (d n : Z) (s : string) :
  0 <= d < 10 -> 0 <= n -> n * 10 + d <= maxUint64 ->
  ParseUint_loop (String (digit_char d) s) n = ParseUint_loop s (n * 10 + d).
Proof.
  intros Hd Hn Hmax. cbn [ParseUint_loop].
  rewrite (digit_of_digit_char d Hd).
  assert (Hcut : maxUint64 / 10 + 1 = 1844674407370955162) by reflexivity.
  assert (Hm : maxUint64 = 18446744073709551615) by reflexivity.
  rewrite Hcut. cbv zeta.
  destruct (Z.leb_spec 1844674407370955162 n) as [Hge | _]; [lia |].
  rewrite (to_uint64_small (n * 10)) by lia.
  rewrite (to_uint64_small (n * 10 + d)) by lia.
  destruct (Z.ltb_spec (n * 10 + d) (n * 10)) as [Hlt | _]; [lia |].
  destruct (Z.ltb_spec maxUint64 (n * 10 + d)) as [Hlt | _]; [lia |].
  reflexivity.
Qed.

(** Parsing the digits [formatBits] wrote leaves their value in the
    accumulator. *)
Lemma ParseUint_loop_formatBits (fuel : nat) :
  forall (u : Z) (tail : string),
    0 <= u <= maxUint64 -> u < 10 ^ Z.of_nat fuel ->
    ParseUint_loop (formatBits fuel u tail) 0 = ParseUint_loop tail u.
Proof.
  induction fuel as [| fuel IH]; intros u tail Hu Hfuel.
  - change (10 ^ Z.of_nat 0) with 1 in Hfuel.
    assert (u = 0) as -> by lia. reflexivity.
  - cbn [formatBits]. destruct (Z.ltb_spec u 10) as [Hlt | Hge].
    + rewrite ParseUint_loop_digit; [reflexivity | lia | lia |].
      unfold maxUint64 in *. lia.
    + rewrite Nat2Z.inj_succ, Z.pow_succ_r in Hfuel by lia.
      pose proof (Z.div_mod u 10 ltac:(lia)) as Hdm.
      pose proof (Z.mod_pos_bound u 10 ltac:(lia)) as Hmod.
      rewrite IH; [| lia | lia].
      rewrite ParseUint_loop_digit; [f_equal; lia | lia | lia | lia].
Qed.

(** With fuel left, [formatBits] writes a digit first. *)
Lemma formatBits_head (fuel : nat) :
  forall (u : Z) (acc : string),
    0 <= u ->
    exists d rest, 0 <= d < 10 /\ formatBits (S fuel) u acc = String (digit_char d) rest.
Proof.
  induction fuel as [| fuel IH]; intros u acc Hu;
    cbn [formatBits]; destruct (Z.ltb_spec u 10) as [Hlt | Hge].
  - exists u, acc. split; [lia | reflexivity].
  - exists (u mod 10), acc. split; [apply Z.mod_pos_bound; lia | reflexivity].
  - exists u, acc. split; [lia | reflexivity].
  - apply IH. apply Z.div_pos; lia.
Qed.

Lemma ParseUint_formatBits (u : Z) :
  0 <= u <= maxUint64 -> ParseUint (formatBits 20 u EmptyString) = (u, None).
Proof.
  intros Hu.
  assert (Hloop : ParseUint_loop (formatBits 20 u EmptyString) 0 = (u, None)).
  { rewrite ParseUint_loop_formatBits; [reflexivity | lia |].
    change (10 ^ Z.of_nat 20) with 100000000000000000000.
    unfold maxUint64 in Hu. lia. }
  destruct (formatBits_head 19 u EmptyString ltac:(lia)) as (d & rest & _ & Heq).
  rewrite Heq in *. exact Hloop.
Qed.

(** [ParseInt] inverts [FormatInt] on every int64. *)
Lemma ParseInt_FormatInt (n : Z) :
  - 2 ^ 63 <= n < 2 ^ 63 -> ParseInt (FormatInt n) = (n, None).
Proof.
  intros Hn. unfold FormatInt.
  assert (Hm : maxUint64 = 18446744073709551615) by reflexivity.
  destruct (Z.ltb_spec n 0) as [Hneg | Hpos].
  - assert (Hu : to_uint64 (- n) = - n) by (apply to_uint64_small; lia).
    rewrite Hu. unfold ParseInt.
    change (Ascii.eqb "-" "+")%char with false.
    change (Ascii.eqb "-" "-")%char with true. cbv iota.
    rewrite ParseUint_formatBits by lia. cbv beta iota zeta.
    change (negb true) with false. cbn [andb].
    destruct (Z.ltb_spec (2 ^ 63) (- n)) as [Hlt | Hle]; [lia |].
    f_equal. destruct (Z.eq_dec n (- 2 ^ 63)) as [-> | Hne]; [reflexivity |].
    rewrite (to_int64_small (- n)) by lia.
    rewrite Z.opp_involutive. apply to_int64_small. lia.
  - assert (Hu : to_uint64 n = n) by (apply to_uint64_small; lia).
    rewrite Hu.
    pose proof (ParseUint_formatBits n ltac:(lia)) as Hparse.
    destruct (formatBits_head 19 n EmptyString Hpos) as (d & rest & Hd & Heq).
    rewrite Heq in *. unfold ParseInt.
    destruct (digit_char_not_sign d Hd) as [-> ->].
    rewrite Hparse. cbv beta iota zeta. change (negb false) with true. cbn [andb].
    destruct (Z.leb_spec (2 ^ 63) n) as [Hge | Hlt]; [lia |].
    f_equal. apply to_int64_small. lia.
Qed.

End strconv_facts.

(** ** encoding/json: arrays as dynamic values *)

Lemma arrayInterface_strings (l : list string) :
  json.arrayInterface (JString <$> l) = (string_any <$> l, None).
Proof.
  induction l as [| s l IH]; [reflexivity |].
  cbn [fmap list_fmap json.arrayInterface json.valueInterface] in *.
  rewrite IH. reflexivity.
Qed.

Lemma saveError_None (e1 e2 : option error) :
  json.saveError e1 e2 = None -> e1 = None /\ e2 = None.
Proof. destruct e1, e2; cbn; intros H; try discriminate; auto. Qed.

(** Without an error, the slice holds the dynamic value of every item. *)
Lemma arrayInterface_values (l : list node) :
  forall vs, json.arrayInterface l = (vs, None) ->
    vs = (fun x => (json.valueInterface x).1) <$> l.
Proof.
  induction l as [| x l IH]; intros vs Harr.
  - cbn in Harr. injection Harr as <-. reflexivity.
  - cbn [json.arrayInterface] in Harr.
    destruct (json.valueInterface x) as [v e1] eqn:Hx.
    destruct (json.arrayInterface l) as [vs' e2].
    injection Harr as <- Herr.
    apply saveError_None in Herr as [-> ->].
    cbn [fmap list_fmap]. rewrite Hx. cbn [fst]. f_equal. apply IH. reflexivity.
Qed.

(** Induction on a node with the hypothesis for every item of an array
    and every member of an object. *)
Lemma node_nested_ind (P : node -> Prop) :
  P JNull ->
  (forall b, P (JBool b)) ->
  (forall lit, P (JNumber lit)) ->
  (forall s, P (JString s)) ->
  (forall items, Forall P items -> P (JArray items)) ->
  (forall members, Forall (fun kx => P kx.2) members -> P (JObject members)) ->
  forall j, P j.
Proof.
  intros Hnull Hbool Hnumber Hstring Harray Hobject.
  fix IH 1.
  intros [| b | lit | s | items | members];
    [exact Hnull | apply Hbool | apply Hnumber | apply Hstring | |].
  - apply Harray. induction items as [| x items IHitems]; constructor.
    + apply IH.
    + exact IHitems.
  - apply Hobject. induction members as [| [k x] members IHmembers]; constructor.
    + apply IH.
    + exact IHmembers.
Qed.

Lemma valueInterface_array (items : list node) :
  json.valueInterface (JArray items) =
    let '(vs, err) := json.arrayInterface items in (slice_any vs, err).
Proof. reflexivity. Qed.

Lemma valueInterface_object (members : list (string * node)) :
  json.valueInterface (JObject members) =
    let '(m, err) := json.objectInterface members in (map_any m, err).
Proof. reflexivity. Qed.

Lemma saveError_None_iff (e1 e2 : option error) :
  json.saveError e1 e2 = None <-> e1 = None /\ e2 = None.
Proof.
  split; [apply saveError_None |]. intros [-> ->]. reflexivity.
Qed.

(** A node becomes a dynamic value without an error exactly when every
    number in it fits a float64. *)
Lemma valueInterface_no_error (j : node) :
  (json.valueInterface j).2 = None <-> json.numbers_fit_float64 j = true.
Proof.
  induction j as [| b | lit | s | items IH | members IH] using node_nested_ind;
    try (cbn; split; reflexivity).
  - cbn. destruct (strconv.ParseFloat_err lit); cbn; split; congruence.
  - rewrite valueInterface_array. cbn [json.numbers_fit_float64].
    induction IH as [| x items Hx _ IHitems]; [cbn; split; reflexivity |].
    cbn [json.arrayInterface forallb].
    destruct (json.valueInterface x) as [v e1].
    destruct (json.arrayInterface items) as [vs e2].
    cbn [snd] in *. rewrite saveError_None_iff, andb_true_iff.
    destruct Hx as [Hx1 Hx2], IHitems as [IH1 IH2]. split; intros [H1 H2]; auto.
  - rewrite valueInterface_object. cbn [json.numbers_fit_float64].
    induction IH as [| [k x] members Hx _ IHmembers]; [cbn; split; reflexivity |].
    cbn [json.objectInterface forallb]. cbn [snd] in Hx.
    destruct (json.valueInterface x) as [v e1].
    destruct (json.objectInterface members) as [m e2].
    cbn [snd] in *. rewrite saveError_None_iff, andb_true_iff.
    destruct Hx as [Hx1 Hx2], IHmembers as [IH1 IH2]. split; intros [H1 H2]; auto.
Qed.

(** A list decodes into a [[]interface{}] without an error exactly when
    every number in it, at any depth, fits a float64. *)
Lemma Unmarshal_slice_any_no_error (l : list node) (cur : slice any) :
  (json.Unmarshal_slice_any (JArray l) cur).2 = None <->
  forallb json.numbers_fit_float64 l = true.
Proof.
  pose proof (valueInterface_no_error (JArray l)) as H.
  rewrite valueInterface_array in H. cbn [json.numbers_fit_float64] in H.
  cbn [json.Unmarshal_slice_any].
  destruct (json.arrayInterface l) as [vs e]. exact H.
Qed.

(** A number that is stored without an error is stored as a float64. *)
Lemma arrayInterface_number (l : list node) (lit : string) :
  forall vs, json.arrayInterface l = (vs, None) ->
    JNumber lit ∈ l -> float64_any lit ∈ vs.
Proof.
  induction l as [| x l IH]; intros vs Harr Hin.
  - inversion Hin.
  - cbn [json.arrayInterface] in Harr.
    destruct (json.valueInterface x) as [v e1] eqn:Hx.
    destruct (json.arrayInterface l) as [vs' e2].
    injection Harr as <- Herr.
    apply saveError_None in Herr as [-> ->].
    apply elem_of_cons in Hin as [<- | Hin].
    + cbn in Hx. destruct (strconv.ParseFloat_err lit); [discriminate |].
      injection Hx as <-. apply list_elem_of_here.
    + apply list_elem_of_further. apply IH; [reflexivity | exact Hin].
Qed.

(** Only a JSON string becomes a Go string. *)
Lemma valueInterface_string (x : node) (s : string) :
  (json.valueInterface x).1 = string_any s -> x = JString s.
Proof.
  destruct x as [| b | lit | s' | items | members]; cbn; try discriminate.
  - destruct (strconv.ParseFloat_err lit); discriminate.
  - intros [= ->]. reflexivity.
  - match goal with |- context [let '(_, _) := ?p in _] => destruct p end.
    discriminate.
  - match goal with |- context [let '(_, _) := ?p in _] => destruct p end.
    discriminate.
Qed.

(** A list with an item that is no string starts with strings up to the
    first such item. *)
Lemma first_non_string (l : list node) :
  (exists x, x ∈ l /\ forall s, x <> JString s) ->
  exists (l1 : list string) (x : node) (l2 : list node),
    l = ((JString <$> l1) ++ x :: l2)%list /\ forall s, x <> JString s.
Proof.
  induction l as [| y l IH]; intros (x & Hin & Hx).
  - inversion Hin.
  - destruct y as [| b | lit | s | items | members];
      try (eexists [], _, l; split; [reflexivity | discriminate]).
    apply elem_of_cons in Hin as [-> | Hin]; [exfalso; exact (Hx s eq_refl) |].
    destruct IH as (l1 & x' & l2 & -> & Hx'); [exists x; auto |].
    exists (s :: l1), x', l2. split; [reflexivity | exact Hx'].
Qed.

(** ** The loops of toStrings and toDurations *)

(** Loop invariant of [toStrings]: after [k] rounds the first [k] places
    of [r] are final; on strings only, the loop fills the rest in order. *)
Lemma toStrings_loop_strings (l : list string) :
  forall (k : nat) (r : list string),
    length r = (k + length l)%nat ->
    toStrings_loop k (string_any <$> l) r = (mk_slice (take k r ++ l)%list, None).
Proof.
  induction l as [| s l IH]; intros k r Hlen; cbn [fmap list_fmap toStrings_loop].
  - rewrite app_nil_r, take_ge by (cbn in Hlen; lia). reflexivity.
  - cbn [length] in Hlen.
    change (list_fmap string any string_any l) with (string_any <$> l).
    rewrite IH by (rewrite length_insert; lia).
    rewrite (take_S_r _ k s) by (apply list_lookup_insert_eq; lia).
    rewrite take_insert_ge by lia.
    rewrite <- app_assoc. reflexivity.
Qed.

(** The loop stops at the first element that is no string. *)
Lemma toStrings_loop_mismatch (l1 : list string) (v : any) (vs : list any) :
  (forall s, v <> string_any s) ->
  forall (k : nat) (r : list string),
    toStrings_loop k ((string_any <$> l1) ++ v :: vs)%list r =
      (nil_slice,
       Some (fmt_Errorf "cannot unmarshal %v of type %T into a string value" [v; v])).
Proof.
  intros Hv. induction l1 as [| s l1 IH]; intros k r.
  - cbn. destruct v; try reflexivity. exfalso. exact (Hv _ eq_refl).
  - cbn [fmap list_fmap app toStrings_loop]. apply IH.
Qed.

Section Durations_facts.

Variable ParseDuration : string -> Z * option error.

(** A float64 anywhere in the slice makes the loop of [toDurations] fail:
    at that element, or at an earlier one. *)
Lemma toDurations_loop_float64 (vs : list any) (lit : string) :
  float64_any lit ∈ vs ->
  forall (k : nat) (r : list Z),
    exists e, toDurations_loop ParseDuration k vs r = (nil_slice, Some e).
Proof.
  induction vs as [| v vs IH]; intros Hin k r.
  - inversion Hin.
  - apply elem_of_cons in Hin as [<- | Hin]; [cbn; eauto |].
    destruct v; cbn [toDurations_loop]; eauto.
    destruct (ParseDuration s) as [dur [e |]]; eauto.
Qed.

(** Loop invariant of [toDurations] on elements of type int64: each is
    stored as it is. *)
Lemma toDurations_loop_int64 (ns : list Z) :
  forall (k : nat) (r : list Z),
    length r = (k + length ns)%nat ->
    toDurations_loop ParseDuration k (int64_any <$> ns) r = (mk_slice (take k r ++ ns)%list, None).
Proof.
  induction ns as [| n ns IH]; intros k r Hlen; cbn [fmap list_fmap toDurations_loop].
  - rewrite app_nil_r, take_ge by (cbn in Hlen; lia). reflexivity.
  - cbn [length] in Hlen.
    change (list_fmap Z any int64_any ns) with (int64_any <$> ns).
    rewrite IH by (rewrite length_insert; lia).
    rewrite (take_S_r _ k n) by (apply list_lookup_insert_eq; lia).
    rewrite take_insert_ge by lia.
    rewrite <- app_assoc. reflexivity.
Qed.

(** Given a slice of int64 values, [toDurations] takes each as a count of
    nanoseconds. *)
Lemma toDurations_int64_exact (n : Z) (ns : list Z) :
  toDurations ParseDuration (mk_slice (int64_any <$> n :: ns)) = (mk_slice (n :: ns), None).
Proof.
  unfold toDurations, len, elems. rewrite length_fmap. cbn [length Nat.eqb].
  rewrite toDurations_loop_int64; [reflexivity |].
  rewrite length_replicate. reflexivity.
Qed.

(** A list with a number in it does not decode: no JSON number arrives
    at [toDurations] as an [int] or [int64]. *)
Lemma Durationorslice_list_with_number (l : list node) (lit : string) (r : slice Z) :
  JNumber lit ∈ l ->
  exists e, Durationorslice_UnmarshalJSON ParseDuration (JArray l) r = (r, Some e).
Proof.
  intros Hin. unfold Durationorslice_UnmarshalJSON.
  cbn [json.Unmarshal_int64 json.Unmarshal_slice_any].
  destruct (json.arrayInterface l) as [vs [e |]] eqn:Harr; [eauto |].
  pose proof (arrayInterface_number l lit vs Harr Hin) as Hvs.
  unfold toDurations, len, elems.
  destruct vs as [| v vs]; [inversion Hvs |]. cbn [length Nat.eqb].
  destruct (toDurations_loop_float64 (v :: vs) lit Hvs 0%nat
              (replicate (S (length vs)) zero)) as [e ->].
  eauto.
Qed.

End Durations_facts.

(** ** The decoders, node shape by node shape *)

(** [Workspace.UnmarshalJSON] by the shape of its input: both tests are
    [err != nil], so a node that is no boolean is answered from [out1],
    which is still [false], and a boolean from [out2], which is still
    the zero struct. *)
Lemma Workspace_UnmarshalJSON_cases (data : node) (v : Workspace) :
  Workspace_UnmarshalJSON data v =
    match data with
    | JNull => (v, None)
    | JBool _ => ({| Disabled := false; Path := EmptyString |}, None)
    | _ => ({| Disabled := true; Path := Path v |}, None)
    end.
Proof. destruct data; reflexivity. Qed.

Section Runtime_facts.

Context {RuntimeCloud RuntimeKubernetes RuntimeInstance : Type}.
Context {zero_cloud : Zero RuntimeCloud}.
Context {zero_kubernetes : Zero RuntimeKubernetes}.
Context {zero_instance : Zero RuntimeInstance}.
Variable Unmarshal_RuntimeCloud : node -> RuntimeCloud -> RuntimeCloud * option error.
Variable Unmarshal_RuntimeKubernetes :
  node -> RuntimeKubernetes -> RuntimeKubernetes * option error.
Variable Unmarshal_RuntimeInstance : node -> RuntimeInstance -> RuntimeInstance * option error.

Local Abbreviation Runtime_UnmarshalJSON' :=
  (Runtime_UnmarshalJSON Unmarshal_RuntimeCloud Unmarshal_RuntimeKubernetes
     Unmarshal_RuntimeInstance).

(** [Runtime.UnmarshalJSON] by the shape of its input: the switch on
    [out1] runs only after decoding into [out1] has failed, when [out1]
    is still the empty string. *)
Lemma Runtime_UnmarshalJSON_cases (data : node)
    (v : Runtime RuntimeCloud RuntimeKubernetes RuntimeInstance) :
  Runtime_UnmarshalJSON' data v =
    match data with
    | JNull => (v, None)
    | JString _ => (mkRuntime None None None false, None)
    | _ => (v, Some (fmt_Errorf "unknown runtime type: %s" [string_any EmptyString]))
    end.
Proof. destruct data; reflexivity. Qed.

(** C1. What the code does on a bare string, where the claim expects the
    named slot to be populated and an unknown name to be an error: for
    every string, one of the four keywords or not, decoding returns no
    error and stores a selection with all four slots empty and the shell
    flag false. *)
Theorem Runtime_string_populates_nothing (s : string)
    (v : Runtime RuntimeCloud RuntimeKubernetes RuntimeInstance) :
  Runtime_UnmarshalJSON' (JString s) v =
    ({| Cloud := None; Kubernetes := None; VM := None; Shell := false |}, None).
Proof. apply Runtime_UnmarshalJSON_cases. Qed.

(** C4. What the code does on an object, where the claim expects its
    recognized keys to populate the slots: for every object decoding
    fails with the unknown-runtime-type error for the empty name and
    leaves the receiver as it was. *)
Theorem Runtime_object_rejected (members : list (string * node))
    (v : Runtime RuntimeCloud RuntimeKubernetes RuntimeInstance) :
  Runtime_UnmarshalJSON' (JObject members) v =
    (v, Some (fmt_Errorf "unknown runtime type: %s" [string_any EmptyString])).
Proof. apply Runtime_UnmarshalJSON_cases. Qed.

End Runtime_facts.

(** C2. What the code does on a bare boolean, where the claim expects
    [disabled] to be the negation of the boolean: for [true] and for
    [false] alike decoding returns no error and stores [disabled = false]
    with an empty path, so [false] does not disable the workspace. *)
Theorem Workspace_bool_never_disabled (b : bool) (v : Workspace) :
  Workspace_UnmarshalJSON (JBool b) v = ({| Disabled := false; Path := EmptyString |}, None).
Proof. apply Workspace_UnmarshalJSON_cases. Qed.

(** C10. The WorkspaceSelector decoder never fails: for every input node
    and every receiver, [Workspace.UnmarshalJSON] returns the nil
    error. *)
Theorem Workspace_UnmarshalJSON_never_fails (data : node) (v : Workspace) :
  (Workspace_UnmarshalJSON data v).2 = None.
Proof. rewrite Workspace_UnmarshalJSON_cases. destruct data; reflexivity. Qed.

(** C3. What the code does on a single string node, where the claim
    expects the duration the string denotes: for every string, "10s"
    among them, decoding fails with the decoder's last error and leaves
    the receiver as it was; the string never reaches the duration
    parser. *)
Theorem Durationorslice_string_rejected
    (ParseDuration : string -> Z * option error) (s : string) (r : slice Z) :
  Durationorslice_UnmarshalJSON ParseDuration (JString s) r =
    (r, Some (errors_New "failed to unmarshal duration string or duration array")).
Proof. reflexivity. Qed.

(** C5. What the code does on the list node [[5]], where the claim
    expects the one-element sequence of 5 nanoseconds: the number
    arrives at the element conversion as a float64, which is neither of
    the integer types the conversion accepts, and decoding fails. *)
Theorem Durationorslice_list_integer_rejected
    (ParseDuration : string -> Z * option error) (r : slice Z) :
  Durationorslice_UnmarshalJSON ParseDuration (JArray [JNumber "5"]) r =
    (r, Some (fmt_Errorf "cannot unmarshal %v into type duration" [float64_any "5"])).
Proof. reflexivity. Qed.

(** A bare integer that is not in a list is decoded, as a count of
    nanoseconds. *)
Lemma Durationorslice_bare_integer
    (ParseDuration : string -> Z * option error) (n : Z) (r : slice Z) :
  - 2 ^ 63 <= n < 2 ^ 63 ->
  Durationorslice_UnmarshalJSON ParseDuration (JNumber (strconv.FormatInt n)) r =
    (mk_slice [n], None).
Proof.
  intros Hn. unfold Durationorslice_UnmarshalJSON, json.Unmarshal_int64.
  rewrite ParseInt_FormatInt by exact Hn. reflexivity.
Qed.

(** C6. For every signed 64-bit integer [n], the ScalarOrNumber decoder
    accepts the bare number node [n] and the string node holding the
    base-10 rendering of [n], and yields [n] for both. *)
Theorem StringorInt_number_and_string_agree (n s0 : Z) :
  - 2 ^ 63 <= n < 2 ^ 63 ->
  StringorInt_UnmarshalJSON (JNumber (strconv.FormatInt n)) s0 = (n, None) /\
  StringorInt_UnmarshalJSON (JString (strconv.FormatInt n)) s0 = (n, None).
Proof.
  intros Hn. unfold StringorInt_UnmarshalJSON, json.Unmarshal_int64, json.Unmarshal_string.
  cbn [json.describe]. rewrite ParseInt_FormatInt by exact Hn. split; reflexivity.
Qed.

Lemma StringorInt_number_and_string_agree_witness :
  - 2 ^ 63 <= -42 < 2 ^ 63 /\
  StringorInt_UnmarshalJSON (JNumber "-42") 7 = (-42, None) /\
  StringorInt_UnmarshalJSON (JString "-42") 7 = (-42, None).
Proof.
  split; [lia |].
  apply (StringorInt_number_and_string_agree (-42) 7). lia.
Defined.

(** The ByteSize decoder takes a bare number as the byte count it
    spells. *)
Lemma MemStringorInt_bare_number (n s0 : Z) :
  - 2 ^ 63 <= n < 2 ^ 63 ->
  MemStringorInt_UnmarshalJSON (JNumber (strconv.FormatInt n)) s0 = (n, None).
Proof.
  intros Hn. unfold MemStringorInt_UnmarshalJSON, json.Unmarshal_int64.
  rewrite ParseInt_FormatInt by exact Hn. reflexivity.
Qed.

(** C7. The ByteSize decoder decodes the string node "1g" to 1073741824
    and the bare number node 1073741824 to the same value, and fails on
    the string node "1x" with the size parser's error for the suffix,
    leaving the receiver as it was. *)
Theorem MemStringorInt_examples (s0 : Z) :
  MemStringorInt_UnmarshalJSON (JString "1g") s0 = (1073741824, None) /\
  MemStringorInt_UnmarshalJSON (JNumber "1073741824") s0 = (1073741824, None) /\
  MemStringorInt_UnmarshalJSON (JString "1x") s0 =
    (s0, Some (fmt_Errorf "invalid suffix: '%s'" [string_any "x"])) /\
  units.RAMInBytes "1x" = (-1, Some (fmt_Errorf "invalid suffix: '%s'" [string_any "x"])).
Proof. repeat split; vm_compute; reflexivity. Qed.

(** C8, as the code has it.  The StringOrList decoder decodes a single
    string node [s] to the one-element sequence [[s]] and a list node of
    one or more strings to those strings in the order of the list.  The
    empty list it decodes without an error to Go's nil slice, the null
    value of the sequence type, not to an allocated sequence without
    elements; the receiver's old value is replaced by it. *)
Theorem Stringorslice_strings_in_order (r : slice string) :
  (forall s : string, Stringorslice_UnmarshalJSON (JString s) r = (mk_slice [s], None)) /\
  (forall (s : string) (l : list string),
     Stringorslice_UnmarshalJSON (JArray (JString <$> s :: l)) r = (mk_slice (s :: l), None)) /\
  Stringorslice_UnmarshalJSON (JArray []) r = (nil_slice, None).
Proof.
  split; [reflexivity |]. split; [| reflexivity].
  intros s l. unfold Stringorslice_UnmarshalJSON.
  cbn [json.Unmarshal_string json.Unmarshal_slice_any json.describe].
  rewrite arrayInterface_strings.
  unfold toStrings, len, elems.
  rewrite length_fmap. cbn [length Nat.eqb].
  rewrite (toStrings_loop_strings (s :: l)); [reflexivity |].
  rewrite length_replicate. reflexivity.
Qed.

(** C8 as stated, with the empty sequence a value that is not null,
    fails on the empty list: what the decoder stores is the nil slice,
    not an allocated slice of any elements, also when the receiver held
    an allocated one. *)
Lemma Stringorslice_empty_list_counterexample :
  Stringorslice_UnmarshalJSON (JArray []) (mk_slice ["old"]) = (nil_slice, None) /\
  ~ (exists l : list string,
       Stringorslice_UnmarshalJSON (JArray []) (mk_slice ["old"]) = (mk_slice l, None)).
Proof.
  split; [reflexivity |]. intros [l Hl]. discriminate Hl.
Qed.

(** C9, as the code has it.  If a list node has an item that is no
    string, the StringOrList decoder fails with a single error and
    leaves the receiver as it was, so no part of the list is returned.
    When the list decodes into dynamic values without an error, that
    error carries the first item that is no string, as the value to
    print and to name the type of, which is not the type string;
    otherwise it is the decoder's last error. *)
Theorem Stringorslice_non_string_item (l : list node) (r : slice string) :
  (exists x, x ∈ l /\ forall s, x <> JString s) ->
  exists e,
    Stringorslice_UnmarshalJSON (JArray l) r = (r, Some e) /\
    ((json.Unmarshal_slice_any (JArray l) nil_slice).2 = None ->
     exists (l1 : list string) (x : node) (l2 : list node) (v : any),
       l = ((JString <$> l1) ++ x :: l2)%list /\ (forall s, x <> JString s) /\
       v = (json.valueInterface x).1 /\ typeName v <> "string" /\
       e = fmt_Errorf "cannot unmarshal %v of type %T into a string value" [v; v]) /\
    ((json.Unmarshal_slice_any (JArray l) nil_slice).2 <> None ->
     e = errors_New "failed to unmarshal string or string array").
Proof.
  intros Hex.
  destruct (first_non_string l Hex) as (l1 & x & l2 & -> & Hx).
  assert (Hv : forall s, (json.valueInterface x).1 <> string_any s).
  { intros s Hs. apply valueInterface_string in Hs. exact (Hx s Hs). }
  unfold Stringorslice_UnmarshalJSON.
  cbn [json.Unmarshal_string json.Unmarshal_slice_any json.describe].
  destruct (json.arrayInterface _) as [vs [e |]] eqn:Harr; cbn [snd].
  - exists (errors_New "failed to unmarshal string or string array").
    split; [reflexivity |]. split; [discriminate | reflexivity].
  - apply arrayInterface_values in Harr. subst vs.
    rewrite fmap_app, <- list_fmap_compose, fmap_cons.
    change ((λ x0 : node, (json.valueInterface x0).1) ∘ JString) with string_any.
    unfold toStrings, len, elems.
    rewrite length_app. cbn [length]. rewrite Nat.add_succ_r. cbn [Nat.eqb].
    rewrite toStrings_loop_mismatch by exact Hv.
    eexists. split; [reflexivity |]. split; [| intros Hne; exfalso; exact (Hne eq_refl)].
    intros _. exists l1, x, l2, (json.valueInterface x).1.
    split; [reflexivity |]. split; [exact Hx |]. split; [reflexivity |].
    split; [| reflexivity].
    destruct (json.valueInterface x).1; cbn; try discriminate.
    exfalso. exact (Hv _ eq_refl).
Qed.

Lemma Stringorslice_non_string_item_witness :
  (exists x, x ∈ [JString "a"; JNumber "1"; JNumber "2"] /\ forall s, x <> JString s) /\
  exists e,
    Stringorslice_UnmarshalJSON (JArray [JString "a"; JNumber "1"; JNumber "2"])
      (mk_slice ["old"]) = (mk_slice ["old"], Some e) /\
    ((json.Unmarshal_slice_any (JArray [JString "a"; JNumber "1"; JNumber "2"])
        nil_slice).2 = None ->
     exists (l1 : list string) (x : node) (l2 : list node) (v : any),
       [JString "a"; JNumber "1"; JNumber "2"] = ((JString <$> l1) ++ x :: l2)%list /\
       (forall s, x <> JString s) /\
       v = (json.valueInterface x).1 /\ typeName v <> "string" /\
       e = fmt_Errorf "cannot unmarshal %v of type %T into a string value" [v; v]) /\
    ((json.Unmarshal_slice_any (JArray [JString "a"; JNumber "1"; JNumber "2"])
        nil_slice).2 <> None ->
     e = errors_New "failed to unmarshal string or string array").
Proof.
  assert (Hex : exists x, x ∈ [JString "a"; JNumber "1"; JNumber "2"] /\
                          forall s, x <> JString s).
  { exists (JNumber "1"). split; [| discriminate].
    apply list_elem_of_further, list_elem_of_here. }
  split; [exact Hex |].
  exact (Stringorslice_non_string_item
           [JString "a"; JNumber "1"; JNumber "2"] (mk_slice ["old"]) Hex).
Defined.

(** C9 as stated fails on the list [[1e999]]: its item is no string, yet
    the error is the decoder's last one, which carries neither the item
    nor its type. *)
Lemma Stringorslice_non_string_item_counterexample :
  (exists x, x ∈ [JNumber "1e999"] /\ forall s, x <> JString s) /\
  Stringorslice_UnmarshalJSON (JArray [JNumber "1e999"]) nil_slice =
    (nil_slice, Some (errors_New "failed to unmarshal string or string array")) /\
  ~ (exists v,
       (Stringorslice_UnmarshalJSON (JArray [JNumber "1e999"]) nil_slice).2 =
         Some (fmt_Errorf "cannot unmarshal %v of type %T into a string value" [v; v])).
Proof.
  split; [exists (JNumber "1e999"); split; [apply list_elem_of_here | discriminate] |].
  assert (Heval : Stringorslice_UnmarshalJSON (JArray [JNumber "1e999"]) nil_slice =
                  (nil_slice, Some (errors_New "failed to unmarshal string or string array")))
    by (vm_compute; reflexivity).
  split; [exact Heval |]. rewrite Heval. intros [v Hv]. discriminate.
Qed.

(** ** The decoders on sample nodes *)

Example StringorInt_abc (s0 : Z) :
  StringorInt_UnmarshalJSON (JString "abc") s0 =
    (s0, Some (NumError "ParseInt" "abc" ErrSyntax)).
Proof. reflexivity. Qed.

Example StringorInt_list (s0 : Z) :
  StringorInt_UnmarshalJSON (JArray [JNumber "1"]) s0 =
    (s0, Some (errors_New "failed to unmarshal string or number")).
Proof. reflexivity. Qed.

Example MemStringorInt_10m (s0 : Z) :
  MemStringorInt_UnmarshalJSON (JString "10m") s0 = (10485760, None).
Proof. vm_compute. reflexivity. Qed.

Example Stringorslice_foo (r : slice string) :
  Stringorslice_UnmarshalJSON (JString "foo") r = (mk_slice ["foo"], None).
Proof. reflexivity. Qed.

Example Stringorslice_a_b (r : slice string) :
  Stringorslice_UnmarshalJSON (JArray [JString "a"; JString "b"]) r =
    (mk_slice ["a"; "b"], None).
Proof. reflexivity. Qed.

Example Stringorslice_1_2 (r : slice string) :
  Stringorslice_UnmarshalJSON (JArray [JNumber "1"; JNumber "2"]) r =
    (r, Some (fmt_Errorf "cannot unmarshal %v of type %T into a string value"
                [float64_any "1"; float64_any "1"])).
Proof. reflexivity. Qed.

Example Stringorslice_object (r : slice string) :
  Stringorslice_UnmarshalJSON (JObject []) r =
    (r, Some (errors_New "failed to unmarshal string or string array")).
Proof. reflexivity. Qed.

Example Workspace_object (v : Workspace) :
  Workspace_UnmarshalJSON (JObject [("disabled", JBool false); ("path", JString "x")]) v =
    ({| Disabled := true; Path := Path v |}, None).
Proof. reflexivity. Qed.

(** ** strconv: which strings ParseInt takes *)

Section ParseInt_facts.

Import strconv.

Lemma digit_of_range (c : ascii) (d : Z) : digit_of c = Some d -> 0 <= d <= 9.
Proof.
  unfold digit_of. intros H.
  destruct (Z.leb_spec 48 (Z.of_N (N_of_ascii c))); [| discriminate].
  destruct (Z.leb_spec (Z.of_N (N_of_ascii c)) 57); [| discriminate].
  cbn in H. injection H as <-. lia.
Qed.

(** Digits only add to the number read so far. *)
Lemma decimal_ge (s : string) :
  forall acc n, 0 <= acc -> decimal s acc = Some n -> acc <= n.
Proof.
  induction s as [| c s IH]; intros acc n Hacc Hdec; cbn in Hdec.
  - injection Hdec as <-. lia.
  - destruct (digit_of c) as [d |] eqn:Hd; [| discriminate].
    apply digit_of_range in Hd. apply IH in Hdec; lia.
Qed.

(** The loop of [ParseUint] reads exactly the digit strings whose number
    fits a uint64, and reads that number. *)
Lemma ParseUint_loop_iff (s : string) :
  forall n0 n,
    0 <= n0 <= maxUint64 ->
    ParseUint_loop s n0 = (n, None) <-> decimal s n0 = Some n /\ n <= maxUint64.
Proof.
  assert (Hm : maxUint64 = 18446744073709551615) by reflexivity.
  assert (Hcut : maxUint64 / 10 + 1 = 1844674407370955162) by reflexivity.
  assert (Hp : 2 ^ 64 = 18446744073709551616) by reflexivity.
  induction s as [| c s IH]; intros n0 n Hn0; cbn [ParseUint_loop decimal].
  - split; [intros [= <-]; split; [reflexivity | lia] | intros [[= <-] _]; reflexivity].
  - destruct (digit_of c) as [d |] eqn:Hd;
      [| split; [discriminate | intros [? _]; discriminate]].
    apply digit_of_range in Hd. rewrite Hcut. cbv zeta.
    destruct (Z.leb_spec 1844674407370955162 n0) as [Hge | Hlt].
    { split; [discriminate |]. intros [Hdec Hn].
      apply decimal_ge in Hdec; lia. }
    rewrite (to_uint64_small (n0 * 10)) by lia.
    destruct (Z_le_gt_dec (n0 * 10 + d) maxUint64) as [Hfit | Hover].
    + rewrite (to_uint64_small (n0 * 10 + d)) by lia.
      destruct (Z.ltb_spec (n0 * 10 + d) (n0 * 10)) as [Hw | _]; [lia |].
      destruct (Z.ltb_spec maxUint64 (n0 * 10 + d)) as [Hw | _]; [lia |].
      cbn [orb]. apply IH. lia.
    + assert (Hwrap : to_uint64 (n0 * 10 + d) = n0 * 10 + d - 2 ^ 64).
      { unfold to_uint64. symmetry. apply (Z.mod_unique _ _ 1); lia. }
      rewrite Hwrap.
      destruct (Z.ltb_spec (n0 * 10 + d - 2 ^ 64) (n0 * 10)) as [_ | Hw]; [| lia].
      cbn [orb]. split; [discriminate |]. intros [Hdec Hn].
      apply decimal_ge in Hdec; lia.
Qed.

(** A range error of the loop comes with the largest uint64. *)
Lemma ParseUint_loop_range (s : string) :
  forall n0 u, ParseUint_loop s n0 = (u, Some ErrRange) -> u = maxUint64.
Proof.
  induction s as [| c s IH]; intros n0 u; cbn [ParseUint_loop]; [discriminate |].
  destruct (digit_of c); [| discriminate]. cbv zeta.
  repeat case_match; try (intros [= <-]; reflexivity). apply IH.
Qed.

(** What [ParseInt] does once the sign is off: [s1] is the rest,
    [negative] the sign, [s0] the whole string for the error. *)
Lemma ParseInt_after_sign (negative : bool) (s0 s1 : string) (n : Z) :
  s1 <> EmptyString ->
  match ParseUint s1 with
  | (_, Some ErrSyntax) => (0, Some (NumError "ParseInt" s0 ErrSyntax))
  | (un, _) =>
      if negb negative && (2 ^ 63 <=? un)
      then (2 ^ 63 - 1, Some (NumError "ParseInt" s0 ErrRange))
      else if negative && (2 ^ 63 <? un)
      then (- 2 ^ 63, Some (NumError "ParseInt" s0 ErrRange))
      else (if negative then to_int64 (- to_int64 un) else to_int64 un, None)
  end = (n, None) <->
  (exists u, decimal s1 0 = Some u /\ n = (if negative then - u else u)) /\
  - 2 ^ 63 <= n < 2 ^ 63.
Proof.
  intros Hs1.
  assert (Hm : maxUint64 = 18446744073709551615) by reflexivity.
  assert (Hp : 2 ^ 63 = 9223372036854775808) by reflexivity.
  assert (Hparse : ParseUint s1 = ParseUint_loop s1 0)
    by (destruct s1; [contradiction | reflexivity]).
  rewrite Hparse.
  assert (H0 : 0 <= 0 <= maxUint64) by lia.
  pose proof (fun n => ParseUint_loop_iff s1 0 n H0) as Hiff. cbv beta in Hiff.
  destruct (ParseUint_loop s1 0) as [un [[] |]] eqn:Hloop.
  - split; [discriminate |]. intros [(u & Hu & ->) Hr].
    pose proof (decimal_ge s1 0 u ltac:(lia) Hu).
    assert (Hu' : u <= maxUint64) by (destruct negative; lia).
    pose proof (proj2 (Hiff u) (conj Hu Hu')). discriminate.
  - apply ParseUint_loop_range in Hloop as Hun. subst un.
    replace (2 ^ 63 <=? maxUint64) with true by reflexivity.
    replace (2 ^ 63 <? maxUint64) with true by reflexivity.
    destruct negative; cbn [negb andb]; (split; [discriminate |]);
      intros [(u & Hu & ->) Hr];
      pose proof (decimal_ge s1 0 u ltac:(lia) Hu);
      assert (Hu' : u <= maxUint64) by lia;
      pose proof (proj2 (Hiff u) (conj Hu Hu')); discriminate.
  - destruct (proj1 (Hiff un) eq_refl) as [Hdec Hmax].
    pose proof (decimal_ge s1 0 un ltac:(lia) Hdec) as Hpos.
    destruct negative; cbn [negb andb].
    + destruct (Z.ltb_spec (2 ^ 63) un) as [Hbig | Hsmall].
      * split; [discriminate |]. intros [(u & Hu & ->) Hr]. rewrite Hdec in Hu.
        injection Hu as <-. lia.
      * assert (Hval : to_int64 (- to_int64 un) = - un).
        { destruct (Z.eq_dec un (2 ^ 63)) as [-> | Hne]; [reflexivity |].
          rewrite (to_int64_small un) by lia. apply to_int64_small. lia. }
        rewrite Hval. split.
        -- intros [= <-]. split; [exists un; auto | lia].
        -- intros [(u & Hu & ->) _]. rewrite Hdec in Hu. injection Hu as <-. reflexivity.
    + destruct (Z.leb_spec (2 ^ 63) un) as [Hbig | Hsmall].
      * split; [discriminate |]. intros [(u & Hu & ->) Hr]. rewrite Hdec in Hu.
        injection Hu as <-. lia.
      * rewrite (to_int64_small un) by lia. split.
        -- intros [= <-]. split; [exists un; auto | lia].
        -- intros [(u & Hu & ->) _]. rewrite Hdec in Hu. injection Hu as <-. reflexivity.
Qed.

(** [ParseInt] takes exactly the literals of the int64 numbers: an
    optional sign, at least one digit, and a number within the range. *)
Lemma ParseInt_iff (s : string) (n : Z) :
  ParseInt s = (n, None) <-> int_literal s = Some n /\ - 2 ^ 63 <= n < 2 ^ 63.
Proof.
  destruct s as [| c rest]; [cbn; split; [discriminate | intros [? _]; discriminate] |].
  unfold ParseInt, int_literal.
  destruct (Ascii.eqb c "+") eqn:Hplus; [| destruct (Ascii.eqb c "-") eqn:Hminus].
  - destruct rest as [| c' rest'];
      [cbn; split; [discriminate | intros [? _]; discriminate] |].
    rewrite (ParseInt_after_sign false); [| discriminate].
    split; [intros [(u & -> & ->) Hr]; auto | intros [Hu Hr]; eauto].
  - destruct rest as [| c' rest'];
      [cbn; split; [discriminate | intros [? _]; discriminate] |].
    rewrite (ParseInt_after_sign true); [| discriminate].
    split.
    + intros [(u & -> & ->) Hr]. auto.
    + intros [Hu Hr]. destruct (decimal _ 0) as [u |]; [| discriminate].
      injection Hu as <-. eauto.
  - rewrite (ParseInt_after_sign false); [| discriminate].
    split; [intros [(u & -> & ->) Hr]; auto | intros [Hu Hr]; eauto].
Qed.

End ParseInt_facts.

(** ** toStrings and toDurations on every slice *)

Lemma toStrings_loop_success (vs : list any) :
  forall (k : nat) (r : list string) (p : slice string),
    toStrings_loop k vs r = (p, None) -> exists l, vs = string_any <$> l.
Proof.
  induction vs as [| v vs IH]; intros k r p Hloop.
  - exists []. reflexivity.
  - destruct v; cbn [toStrings_loop] in Hloop; try discriminate.
    destruct (IH _ _ _ Hloop) as [l ->]. exists (s :: l). reflexivity.
Qed.

Lemma toStrings_loop_failure (vs : list any) :
  forall (k : nat) (r : list string) (p : slice string) (e : error),
    toStrings_loop k vs r = (p, Some e) ->
    p = nil_slice /\
    exists (l1 : list string) (v : any) (rest : list any),
      vs = ((string_any <$> l1) ++ v :: rest)%list /\ (forall x, v <> string_any x) /\
      e = fmt_Errorf "cannot unmarshal %v of type %T into a string value" [v; v].
Proof.
  induction vs as [| v vs IH]; intros k r p e Hloop; [discriminate |].
  destruct v; cbn [toStrings_loop] in Hloop;
    try (injection Hloop as <- <-; split; [reflexivity |];
         eexists [], _, vs; split; [reflexivity |]; split; [discriminate | reflexivity]).
  destruct (IH _ _ _ _ Hloop) as (-> & l1 & v & rest & -> & Hv & ->).
  split; [reflexivity |]. exists (s :: l1), v, rest. auto.
Qed.

(** [toStrings] on an allocated slice of Go strings. *)
Lemma toStrings_list_strings (l : list string) :
  toStrings (mk_slice (string_any <$> l)) = (slice_of l, None).
Proof.
  unfold toStrings, len, elems. rewrite length_fmap.
  destruct l as [| x l]; [reflexivity |]. cbn [length Nat.eqb].
  rewrite (toStrings_loop_strings (x :: l)); [reflexivity |].
  rewrite length_replicate. reflexivity.
Qed.

(** [toStrings] returns no error only for Go strings. *)
Lemma toStrings_list_success (vs : list any) (parts : slice string) :
  toStrings (mk_slice vs) = (parts, None) ->
  exists l : list string, vs = string_any <$> l /\ parts = slice_of l.
Proof.
  intros Hto.
  assert (Hl : exists l, vs = string_any <$> l).
  { unfold toStrings, len, elems in Hto. destruct vs as [| v vs]; [exists []; reflexivity |].
    cbn [length Nat.eqb] in Hto. exact (toStrings_loop_success _ _ _ _ Hto). }
  destruct Hl as [l ->]. exists l. split; [reflexivity |].
  rewrite toStrings_list_strings in Hto. injection Hto as <-. reflexivity.
Qed.

(** The error of [toStrings] carries the first element that is no
    string. *)
Lemma toStrings_list_failure (vs : list any) (parts : slice string) (e : error) :
  toStrings (mk_slice vs) = (parts, Some e) ->
  parts = nil_slice /\
  exists (l1 : list string) (v : any) (rest : list any),
    vs = ((string_any <$> l1) ++ v :: rest)%list /\ (forall x, v <> string_any x) /\
    e = fmt_Errorf "cannot unmarshal %v of type %T into a string value" [v; v].
Proof.
  unfold toStrings, len, elems.
  destruct vs as [| v vs]; cbn [length Nat.eqb]; [discriminate |].
  apply toStrings_loop_failure.
Qed.

(** X5. [toStrings] returns without an error exactly when every element
    of the slice is a Go string; it then returns those strings in their
    order, as many as it was given, and the nil slice when it was given
    none. *)
Theorem toStrings_success_iff (s : slice any) (parts : slice string) :
  toStrings s = (parts, None) <->
  exists l : list string, elems s = string_any <$> l /\ parts = slice_of l.
Proof.
  destruct s as [| vs]; cbn [elems].
  - split.
    + intros [= <-]. exists []. auto.
    + intros ([| x l] & Hl & ->); [reflexivity | discriminate].
  - split; [apply toStrings_list_success |].
    intros (l & -> & ->). apply toStrings_list_strings.
Qed.

(** X6. [toStrings] returns an error exactly when some element is no Go
    string: the error then carries the first such element, whatever its
    type, and the slice beside it is nil, not the strings found so
    far. *)
Theorem toStrings_failure_iff (s : slice any) (parts : slice string) (e : error) :
  toStrings s = (parts, Some e) <->
  parts = nil_slice /\
  exists (l1 : list string) (v : any) (rest : list any),
    elems s = ((string_any <$> l1) ++ v :: rest)%list /\ (forall x, v <> string_any x) /\
    e = fmt_Errorf "cannot unmarshal %v of type %T into a string value" [v; v].
Proof.
  destruct s as [| vs]; cbn [elems].
  - split; [discriminate |].
    intros (_ & l1 & v & rest & Hnil & _). destruct l1; discriminate.
  - split; [apply toStrings_list_failure |].
    intros (-> & l1 & v & rest & -> & Hv & ->).
    unfold toStrings, len, elems.
    rewrite length_app. cbn [length]. rewrite Nat.add_succ_r. cbn [Nat.eqb].
    apply toStrings_loop_mismatch. exact Hv.
Qed.

Section toDurations_facts.

Variable ParseDuration : string -> Z * option error.

Local Abbreviation converts := (fun (v : any) (d : Z) => convert_element ParseDuration v = Some d).

(** Loop invariant of [toDurations]: on elements that all convert, the
    loop stores the converted values in order behind the first [k]
    places. *)
Lemma toDurations_loop_converted (vs : list any) (ds : list Z) :
  Forall2 converts vs ds ->
  forall (k : nat) (r : list Z),
    length r = (k + length vs)%nat ->
    toDurations_loop ParseDuration k vs r = (mk_slice (take k r ++ ds)%list, None).
Proof.
  induction 1 as [| v d vs ds Hv _ IH]; intros k r Hlen; cbn [toDurations_loop].
  - rewrite app_nil_r, take_ge by (cbn in Hlen; lia). reflexivity.
  - cbn [length] in Hlen.
    assert (Hstep : toDurations_loop ParseDuration (S k) vs (<[k := d]> r) =
                    (mk_slice (take k r ++ d :: ds)%list, None)).
    { rewrite IH by (rewrite length_insert; lia).
      rewrite (take_S_r _ k d) by (apply list_lookup_insert_eq; lia).
      rewrite take_insert_ge by lia. rewrite <- app_assoc. reflexivity. }
    destruct v; cbn in Hv; try discriminate.
    + destruct (ParseDuration s) as [dur [e |]]; [discriminate |].
      injection Hv as ->. exact Hstep.
    + injection Hv as ->. exact Hstep.
    + injection Hv as ->. exact Hstep.
Qed.

Lemma toDurations_loop_success (vs : list any) :
  forall (k : nat) (r : list Z) (p : slice Z),
    toDurations_loop ParseDuration k vs r = (p, None) -> exists ds, Forall2 converts vs ds.
Proof.
  induction vs as [| v vs IH]; intros k r p Hloop.
  - exists []. constructor.
  - destruct v; cbn [toDurations_loop] in Hloop; try discriminate.
    + destruct (ParseDuration s) as [dur [e |]] eqn:Hs; [discriminate |].
      destruct (IH _ _ _ Hloop) as [ds Hds]. exists (dur :: ds).
      constructor; [cbn; rewrite Hs; reflexivity | exact Hds].
    + destruct (IH _ _ _ Hloop) as [ds Hds]. exists (n :: ds).
      constructor; [reflexivity | exact Hds].
    + destruct (IH _ _ _ Hloop) as [ds Hds]. exists (n :: ds).
      constructor; [reflexivity | exact Hds].
Qed.

Lemma toDurations_loop_failure (vs : list any) :
  forall (k : nat) (r : list Z) (p : slice Z) (e : error),
    toDurations_loop ParseDuration k vs r = (p, Some e) ->
    p = nil_slice /\
    exists (l1 : list any) (v : any) (rest : list any),
      vs = (l1 ++ v :: rest)%list /\
      Forall (fun x => is_Some (convert_element ParseDuration x)) l1 /\
      convert_element ParseDuration v = None /\
      e = fmt_Errorf "cannot unmarshal %v into type duration" [v].
Proof.
  induction vs as [| v vs IH]; intros k r p e Hloop; [discriminate |].
  assert (Hnext : forall d k' r',
             convert_element ParseDuration v = Some d ->
             toDurations_loop ParseDuration k' vs r' = (p, Some e) ->
             p = nil_slice /\
             exists l1 v' rest,
               v :: vs = (l1 ++ v' :: rest)%list /\
               Forall (fun x => is_Some (convert_element ParseDuration x)) l1 /\
               convert_element ParseDuration v' = None /\
               e = fmt_Errorf "cannot unmarshal %v into type duration" [v']).
  { intros d k' r' Hd Hrec.
    destruct (IH _ _ _ _ Hrec) as (-> & l1 & v' & rest & -> & Hl1 & Hv' & ->).
    split; [reflexivity |]. exists (v :: l1), v', rest.
    split; [reflexivity |]. split; [| auto].
    constructor; [rewrite Hd; eauto | exact Hl1]. }
  assert (Hhere : convert_element ParseDuration v = None ->
                  (nil_slice, Some (fmt_Errorf "cannot unmarshal %v into type duration" [v])) =
                    (p, Some e) ->
                  p = nil_slice /\
                  exists l1 v' rest,
                    v :: vs = (l1 ++ v' :: rest)%list /\
                    Forall (fun x => is_Some (convert_element ParseDuration x)) l1 /\
                    convert_element ParseDuration v' = None /\
                    e = fmt_Errorf "cannot unmarshal %v into type duration" [v']).
  { intros Hv [= <- <-]. split; [reflexivity |]. exists [], v, vs. auto. }
  destruct v; cbn [toDurations_loop] in Hloop;
    try (apply Hhere; [reflexivity | exact Hloop]).
  - destruct (ParseDuration s) as [dur [e' |]] eqn:Hs.
    + apply Hhere; [cbn; rewrite Hs; reflexivity | exact Hloop].
    + eapply Hnext; [cbn; rewrite Hs; reflexivity | exact Hloop].
  - eapply Hnext; [reflexivity | exact Hloop].
  - eapply Hnext; [reflexivity | exact Hloop].
Qed.

Lemma toDurations_loop_stops (l1 : list any) (v : any) (rest : list any) :
  Forall (fun x => is_Some (convert_element ParseDuration x)) l1 ->
  convert_element ParseDuration v = None ->
  forall (k : nat) (r : list Z),
    toDurations_loop ParseDuration k (l1 ++ v :: rest)%list r =
      (nil_slice, Some (fmt_Errorf "cannot unmarshal %v into type duration" [v])).
Proof.
  intros Hl1 Hv. induction Hl1 as [| x l1 [d Hx] _ IH]; intros k r.
  - cbn [app toDurations_loop]. destruct v; cbn in Hv; try discriminate; try reflexivity.
    destruct (ParseDuration s) as [dur [e |]]; [reflexivity | discriminate].
  - cbn [app toDurations_loop]. destruct x; cbn in Hx; try discriminate; try apply IH.
    destruct (ParseDuration s) as [dur [e |]]; [discriminate | apply IH].
Qed.

(** [toDurations] on an allocated slice of elements that convert. *)
Lemma toDurations_list_converted (vs : list any) (ds : list Z) :
  Forall2 converts vs ds ->
  toDurations ParseDuration (mk_slice vs) = (slice_of ds, None).
Proof.
  intros Hds. unfold toDurations, len, elems.
  destruct Hds as [| v d vs ds Hv Hds]; [reflexivity |]. cbn [length Nat.eqb].
  rewrite (toDurations_loop_converted (v :: vs) (d :: ds)); [reflexivity | |].
  - constructor; assumption.
  - rewrite length_replicate. reflexivity.
Qed.

(** [toDurations] returns no error only for elements that convert. *)
Lemma toDurations_list_success (vs : list any) (parts : slice Z) :
  toDurations ParseDuration (mk_slice vs) = (parts, None) ->
  exists ds : list Z, Forall2 converts vs ds /\ parts = slice_of ds.
Proof.
  intros Hto.
  assert (Hds : exists ds, Forall2 converts vs ds).
  { unfold toDurations, len, elems in Hto.
    destruct vs as [| v vs]; [exists []; constructor |].
    cbn [length Nat.eqb] in Hto. exact (toDurations_loop_success _ _ _ _ Hto). }
  destruct Hds as [ds Hds]. exists ds. split; [exact Hds |].
  rewrite (toDurations_list_converted _ _ Hds) in Hto. injection Hto as <-. reflexivity.
Qed.

(** The error of [toDurations] carries the first element that does not
    convert. *)
Lemma toDurations_list_failure (vs : list any) (parts : slice Z) (e : error) :
  toDurations ParseDuration (mk_slice vs) = (parts, Some e) ->
  parts = nil_slice /\
  exists (l1 : list any) (v : any) (rest : list any),
    vs = (l1 ++ v :: rest)%list /\
    Forall (fun x => is_Some (convert_element ParseDuration x)) l1 /\
    convert_element ParseDuration v = None /\
    e = fmt_Errorf "cannot unmarshal %v into type duration" [v].
Proof.
  unfold toDurations, len, elems.
  destruct vs as [| v vs]; cbn [length Nat.eqb]; [discriminate |].
  apply toDurations_loop_failure.
Qed.

(** X7. [toDurations] returns without an error exactly when every
    element converts: a string the duration parser takes, or a value of
    type int or int64, which is taken as it is.  It then returns the
    converted values in the order of the elements, and the nil slice
    when it was given none. *)
Theorem toDurations_success_iff (s : slice any) (parts : slice Z) :
  toDurations ParseDuration s = (parts, None) <->
  exists ds : list Z,
    Forall2 (fun v d => convert_element ParseDuration v = Some d) (elems s) ds /\
    parts = slice_of ds.
Proof.
  destruct s as [| vs]; cbn [elems].
  - split.
    + intros [= <-]. exists []. split; [constructor | reflexivity].
    + intros (ds & Hds & ->). inversion Hds. reflexivity.
  - split; [apply toDurations_list_success |].
    intros (ds & Hds & ->). apply toDurations_list_converted. exact Hds.
Qed.

(** X8. [toDurations] returns an error exactly when some element does
    not convert: the error carries the first such element (the parser's
    own error for a string is dropped), and the slice beside it is
    nil. *)
Theorem toDurations_failure_iff (s : slice any) (parts : slice Z) (e : error) :
  toDurations ParseDuration s = (parts, Some e) <->
  parts = nil_slice /\
  exists (l1 : list any) (v : any) (rest : list any),
    elems s = (l1 ++ v :: rest)%list /\
    Forall (fun x => is_Some (convert_element ParseDuration x)) l1 /\
    convert_element ParseDuration v = None /\
    e = fmt_Errorf "cannot unmarshal %v into type duration" [v].
Proof.
  destruct s as [| vs]; cbn [elems].
  - split; [discriminate |].
    intros (_ & l1 & v & rest & Hnil & _). destruct l1; discriminate.
  - split; [apply toDurations_list_failure |].
    intros (-> & l1 & v & rest & -> & Hl1 & Hv & ->).
    unfold toDurations, len, elems.
    rewrite length_app. cbn [length]. rewrite Nat.add_succ_r. cbn [Nat.eqb].
    apply toDurations_loop_stops; assumption.
Qed.

End toDurations_facts.

(** ** Which nodes the scalar and list decoders take *)

(** An error of [ParseInt] is a [NumError] for [ParseInt] and the whole
    string. *)
Lemma ParseInt_error (s : string) (v : Z) (e : error) :
  strconv.ParseInt s = (v, Some e) -> exists k, e = NumError "ParseInt" s k.
Proof.
  unfold strconv.ParseInt. repeat case_match; intros [= <- <-]; eauto.
Qed.

(** X1. The ScalarOrNumber decoder succeeds on exactly three kinds of
    node: null, which decodes to 0; a number whose literal is an
    optional sign and decimal digits denoting an int64; and a string
    with such a text.  Number and string decode to the integer the text
    denotes, so a fraction, an exponent, a blank or a number outside the
    int64 range is never accepted. *)
Theorem StringorInt_accepted_iff (data : node) (s0 n : Z) :
  StringorInt_UnmarshalJSON data s0 = (n, None) <->
  (data = JNull /\ n = 0) \/
  (exists text, (data = JNumber text \/ data = JString text) /\
                int_literal text = Some n /\ - 2 ^ 63 <= n < 2 ^ 63).
Proof.
  unfold StringorInt_UnmarshalJSON.
  destruct data as [| b | lit | s | items | members];
    cbn [json.Unmarshal_int64 json.Unmarshal_string json.describe];
    try (split; [discriminate |];
         intros [[? _] | (? & [? | ?] & _)]; discriminate).
  - split; [intros [= <-]; left; auto |].
    intros [[_ ->] | (? & [? | ?] & _)]; [reflexivity | discriminate | discriminate].
  - destruct (strconv.ParseInt lit) as [v [e |]] eqn:Hparse.
    + split; [discriminate |].
      intros [[? _] | (text & [[= <-] | ?] & Htext)]; try discriminate.
      apply ParseInt_iff in Htext. rewrite Hparse in Htext. discriminate.
    + apply ParseInt_iff in Hparse as Hlit. split.
      * intros [= <-]. right. exists lit. tauto.
      * intros [[? _] | (text & [[= <-] | ?] & Htext)]; try discriminate.
        destruct Hlit as [Hlit _], Htext as [Htext _]. rewrite Hlit in Htext.
        injection Htext as <-. reflexivity.
  - destruct (strconv.ParseInt s) as [v [e |]] eqn:Hparse.
    + split; [discriminate |].
      intros [[? _] | (text & [? | [= <-]] & Htext)]; try discriminate.
      apply ParseInt_iff in Htext. rewrite Hparse in Htext. discriminate.
    + apply ParseInt_iff in Hparse as Hs. split.
      * intros [= <-]. right. exists s. tauto.
      * intros [[? _] | (text & [? | [= <-]] & Htext)]; try discriminate.
        destruct Hs as [Hs _], Htext as [Htext _]. rewrite Hs in Htext.
        injection Htext as <-. reflexivity.
Qed.

(** X2. The ByteSize decoder succeeds on exactly three kinds of node:
    null, which decodes to 0; a number whose literal denotes an int64,
    taken as it is, negative numbers too; and a string the size parser
    takes.  A string is never read as a plain number first, and a number
    with a fraction or an exponent is rejected. *)
Theorem MemStringorInt_accepted_iff (data : node) (s0 n : Z) :
  MemStringorInt_UnmarshalJSON data s0 = (n, None) <->
  (data = JNull /\ n = 0) \/
  (exists lit, data = JNumber lit /\ int_literal lit = Some n /\ - 2 ^ 63 <= n < 2 ^ 63) \/
  (exists s, data = JString s /\ units.RAMInBytes s = (n, None)).
Proof.
  unfold MemStringorInt_UnmarshalJSON.
  destruct data as [| b | lit | s | items | members];
    cbn [json.Unmarshal_int64 json.Unmarshal_string json.describe];
    try (split; [discriminate |];
         intros [[? _] | [(? & ? & _) | (? & ? & _)]]; discriminate).
  - split; [intros [= <-]; left; auto |].
    intros [[_ ->] | [(? & ? & _) | (? & ? & _)]]; [reflexivity | discriminate | discriminate].
  - destruct (strconv.ParseInt lit) as [v [e |]] eqn:Hparse.
    + split; [discriminate |].
      intros [[? _] | [(lit' & [= <-] & Hlit) | (? & ? & _)]]; try discriminate.
      apply ParseInt_iff in Hlit. rewrite Hparse in Hlit. discriminate.
    + apply ParseInt_iff in Hparse as Hlit. split.
      * intros [= <-]. right; left. exists lit. tauto.
      * intros [[? _] | [(lit' & [= <-] & Hlit') | (? & ? & _)]]; try discriminate.
        destruct Hlit as [Hlit _], Hlit' as [Hlit' _]. rewrite Hlit in Hlit'.
        injection Hlit' as <-. reflexivity.
  - destruct (units.RAMInBytes s) as [v [e |]] eqn:Hram.
    + split; [discriminate |].
      intros [[? _] | [(? & ? & _) | (s' & [= <-] & Hs)]]; try discriminate.
      rewrite Hram in Hs. discriminate.
    + split; [intros [= <-]; right; right; eauto |].
      intros [[? _] | [(? & ? & _) | (s' & [= <-] & Hs)]]; try discriminate.
      rewrite Hram in Hs. injection Hs as <-. reflexivity.
Qed.

(** Items that all became Go strings were JSON strings. *)
Lemma values_strings (items : list node) :
  forall l : list string,
    (fun x => (json.valueInterface x).1) <$> items = string_any <$> l ->
    items = JString <$> l.
Proof.
  induction items as [| x items IH]; intros [| s l] Heq; try discriminate; [reflexivity |].
  cbn [fmap list_fmap] in Heq. injection Heq as Hx Hrest.
  apply valueInterface_string in Hx. subst x.
  cbn [fmap list_fmap]. f_equal. apply IH. exact Hrest.
Qed.

(** X3. The StringOrList decoder succeeds on exactly three kinds of
    node: null, which decodes to the one-element sequence of the empty
    string; a string, which decodes to the one-element sequence of it;
    and a list whose items are all strings, which decodes to them in
    order (the nil slice for the empty list).  No number, boolean or
    object is accepted, alone or in a list. *)
Theorem Stringorslice_accepted_iff (data : node) (r parts : slice string) :
  Stringorslice_UnmarshalJSON data r = (parts, None) <->
  (data = JNull /\ parts = mk_slice [EmptyString]) \/
  (exists s, data = JString s /\ parts = mk_slice [s]) \/
  (exists l : list string, data = JArray (JString <$> l) /\ parts = slice_of l).
Proof.
  unfold Stringorslice_UnmarshalJSON.
  destruct data as [| b | lit | s | items | members];
    cbn [json.Unmarshal_string json.Unmarshal_slice_any json.describe];
    try (split; [discriminate |];
         intros [[? _] | [(? & ? & _) | (? & ? & _)]]; discriminate).
  - split; [intros [= <-]; left; auto |].
    intros [[_ ->] | [(? & ? & _) | (? & ? & _)]]; [reflexivity | discriminate | discriminate].
  - split; [intros [= <-]; right; left; eauto |].
    intros [[? _] | [(s' & [= <-] & ->) | (? & ? & _)]]; [discriminate | reflexivity | discriminate].
  - split.
    + destruct (json.arrayInterface items) as [vs [e |]] eqn:Harr; [discriminate |].
      destruct (toStrings (mk_slice vs)) as [p [e |]] eqn:Hto; [discriminate |].
      intros [= <-]. apply toStrings_list_success in Hto as (l & Hl & ->).
      apply arrayInterface_values in Harr. rewrite Harr in Hl.
      apply values_strings in Hl. subst items. right; right. exists l. auto.
    + intros [[? _] | [(? & ? & _) | (l & [= ->] & ->)]]; try discriminate.
      rewrite arrayInterface_strings.
      rewrite toStrings_list_strings. reflexivity.
Qed.

Section Durationorslice_facts.

Variable ParseDuration : string -> Z * option error.

(** A node whose dynamic value converts is a string the parser takes:
    JSON gives no value of type int or int64. *)
Lemma valueInterface_converts (x : node) (d : Z) :
  convert_element ParseDuration (json.valueInterface x).1 = Some d ->
  exists s, x = JString s /\ ParseDuration s = (d, None).
Proof.
  destruct x as [| b | lit | s | items | members]; cbn; try discriminate.
  - destruct (strconv.ParseFloat_err lit); discriminate.
  - destruct (ParseDuration s) as [dur [e |]] eqn:Hs; [discriminate |].
    intros [= ->]. exists s. split; [reflexivity | exact Hs].
  - match goal with |- context [let '(_, _) := ?p in _] => destruct p end.
    discriminate.
  - match goal with |- context [let '(_, _) := ?p in _] => destruct p end.
    discriminate.
Qed.

Lemma values_convert (items : list node) :
  forall ds : list Z,
    Forall2 (fun v d => convert_element ParseDuration v = Some d)
      ((fun x => (json.valueInterface x).1) <$> items) ds ->
    exists l : list string,
      items = JString <$> l /\ Forall2 (fun s d => ParseDuration s = (d, None)) l ds.
Proof.
  induction items as [| x items IH]; intros ds Hall; cbn [fmap list_fmap] in Hall.
  - inversion Hall. exists []. split; [reflexivity | constructor].
  - inversion Hall as [| v d vs ds' Hv Hrest]; subst.
    apply valueInterface_converts in Hv as (s & -> & Hs).
    destruct (IH _ Hrest) as (l & -> & Hl).
    exists (s :: l). split; [reflexivity | constructor; assumption].
Qed.

Lemma strings_convert (l : list string) (ds : list Z) :
  Forall2 (fun s d => ParseDuration s = (d, None)) l ds ->
  Forall2 (fun v d => convert_element ParseDuration v = Some d) (string_any <$> l) ds.
Proof.
  induction 1 as [| s d l ds Hs _ IH]; cbn [fmap list_fmap]; constructor; [| exact IH].
  cbn. rewrite Hs. reflexivity.
Qed.

(** X4. The DurationOrList decoder succeeds on exactly three kinds of
    node: null, which decodes to the one-element sequence of 0; a number
    whose literal denotes an int64, taken as that many nanoseconds; and
    a list whose items are all strings the duration parser takes, which
    decodes to their durations in order (the nil slice for the empty
    list).  A single string is never accepted, and neither is a list
    with a number in it. *)
Theorem Durationorslice_accepted_iff (data : node) (r parts : slice Z) :
  Durationorslice_UnmarshalJSON ParseDuration data r = (parts, None) <->
  (data = JNull /\ parts = mk_slice [0]) \/
  (exists lit n, data = JNumber lit /\ int_literal lit = Some n /\
                 - 2 ^ 63 <= n < 2 ^ 63 /\ parts = mk_slice [n]) \/
  (exists (l : list string) (ds : list Z),
     data = JArray (JString <$> l) /\
     Forall2 (fun s d => ParseDuration s = (d, None)) l ds /\ parts = slice_of ds).
Proof.
  unfold Durationorslice_UnmarshalJSON.
  destruct data as [| b | lit | s | items | members];
    cbn [json.Unmarshal_int64 json.Unmarshal_slice_any json.describe];
    try (split; [discriminate |];
         intros [[? _] | [(? & ? & ? & _) | (? & ? & ? & _)]]; discriminate).
  - split; [intros [= <-]; left; auto |].
    intros [[_ ->] | [(? & ? & ? & _) | (? & ? & ? & _)]];
      [reflexivity | discriminate | discriminate].
  - destruct (strconv.ParseInt lit) as [v [e |]] eqn:Hparse.
    + split; [discriminate |].
      intros [[? _] | [(lit' & n & [= <-] & Hlit & Hr & _) | (? & ? & ? & _)]];
        try discriminate.
      pose proof (proj2 (ParseInt_iff lit n) (conj Hlit Hr)) as Hn.
      rewrite Hparse in Hn. discriminate.
    + apply ParseInt_iff in Hparse as [Hlit Hr]. split.
      * intros [= <-]. right; left. exists lit, v. auto.
      * intros [[? _] | [(lit' & n & [= <-] & Hlit' & _ & ->) | (? & ? & ? & _)]];
          try discriminate.
        rewrite Hlit in Hlit'. injection Hlit' as <-. reflexivity.
  - split.
    + destruct (json.arrayInterface items) as [vs [e' |]] eqn:Harr; [discriminate |].
      destruct (toDurations ParseDuration (mk_slice vs)) as [p [e' |]] eqn:Hto;
        [discriminate |].
      intros [= <-]. apply toDurations_list_success in Hto as (ds & Hds & ->).
      apply arrayInterface_values in Harr. rewrite Harr in Hds.
      apply values_convert in Hds as (l & -> & Hl). right; right. exists l, ds. auto.
    + intros [[? _] | [(? & ? & ? & _) | (l & ds & [= ->] & Hl & ->)]]; try discriminate.
      rewrite arrayInterface_strings.
      rewrite (toDurations_list_converted ParseDuration _ ds); [reflexivity |].
      apply strings_convert. exact Hl.
Qed.

End Durationorslice_facts.

(** ** The receiver *)

Lemma outcome_idempotent {T : Type} (f : T -> T * option error) (o : T + error) :
  (forall r, f r = outcome o r) -> forall r, f (f r).1 = f r.
Proof.
  intros Hf r. rewrite !Hf. destruct o; reflexivity.
Qed.

Section receiver_facts.

Variable ParseDuration : string -> Z * option error.

Lemma StringorInt_outcome (data : node) :
  exists o, forall s0, StringorInt_UnmarshalJSON data s0 = outcome o s0.
Proof.
  unfold StringorInt_UnmarshalJSON.
  destruct (json.Unmarshal_int64 "int64" data zero) as [n [e |]];
    [| exists (inl n); reflexivity].
  destruct (json.Unmarshal_string data zero) as [s [e' |]];
    [eexists (inr _); reflexivity |].
  destruct (strconv.ParseInt s) as [n' [e' |]];
    [eexists (inr _) | eexists (inl _)]; reflexivity.
Qed.

Lemma MemStringorInt_outcome (data : node) :
  exists o, forall s0, MemStringorInt_UnmarshalJSON data s0 = outcome o s0.
Proof.
  unfold MemStringorInt_UnmarshalJSON.
  destruct (json.Unmarshal_int64 "int64" data zero) as [n [e |]];
    [| exists (inl n); reflexivity].
  destruct (json.Unmarshal_string data zero) as [s [e' |]];
    [eexists (inr _); reflexivity |].
  destruct (units.RAMInBytes s) as [n' [e' |]];
    [eexists (inr _) | eexists (inl _)]; reflexivity.
Qed.

Lemma Stringorslice_outcome (data : node) :
  exists o, forall r, Stringorslice_UnmarshalJSON data r = outcome o r.
Proof.
  unfold Stringorslice_UnmarshalJSON.
  destruct (json.Unmarshal_string data zero) as [s [e |]];
    [| eexists (inl _); reflexivity].
  destruct (json.Unmarshal_slice_any data nil_slice) as [vs [e' |]];
    [eexists (inr _); reflexivity |].
  destruct (toStrings vs) as [p [e' |]];
    [eexists (inr _) | eexists (inl _)]; reflexivity.
Qed.

Lemma Durationorslice_outcome (data : node) :
  exists o, forall r, Durationorslice_UnmarshalJSON ParseDuration data r = outcome o r.
Proof.
  unfold Durationorslice_UnmarshalJSON.
  destruct (json.Unmarshal_int64 "time.Duration" data zero) as [n [e |]];
    [| eexists (inl _); reflexivity].
  destruct (json.Unmarshal_slice_any data nil_slice) as [vs [e' |]];
    [eexists (inr _); reflexivity |].
  destruct (toDurations ParseDuration vs) as [p [e' |]];
    [eexists (inr _) | eexists (inl _)]; reflexivity.
Qed.

(** X9. For each node, each of the four scalar and list decoders has one
    outcome that does not depend on the receiver: a value, which
    replaces whatever the receiver held (nothing is appended to an old
    sequence), or an error, which leaves the receiver exactly as it
    was. *)
Theorem receiver_replaced_or_kept (data : node) :
  (exists o, forall s0, StringorInt_UnmarshalJSON data s0 = outcome o s0) /\
  (exists o, forall s0, MemStringorInt_UnmarshalJSON data s0 = outcome o s0) /\
  (exists o, forall r, Stringorslice_UnmarshalJSON data r = outcome o r) /\
  (exists o, forall r, Durationorslice_UnmarshalJSON ParseDuration data r = outcome o r).
Proof.
  split; [apply StringorInt_outcome |]. split; [apply MemStringorInt_outcome |].
  split; [apply Stringorslice_outcome | apply Durationorslice_outcome].
Qed.

Context {RuntimeCloud RuntimeKubernetes RuntimeInstance : Type}.
Context {zero_cloud : Zero RuntimeCloud}.
Context {zero_kubernetes : Zero RuntimeKubernetes}.
Context {zero_instance : Zero RuntimeInstance}.
Variable Unmarshal_RuntimeCloud : node -> RuntimeCloud -> RuntimeCloud * option error.
Variable Unmarshal_RuntimeKubernetes :
  node -> RuntimeKubernetes -> RuntimeKubernetes * option error.
Variable Unmarshal_RuntimeInstance : node -> RuntimeInstance -> RuntimeInstance * option error.

Local Abbreviation Runtime_UnmarshalJSON' :=
  (Runtime_UnmarshalJSON Unmarshal_RuntimeCloud Unmarshal_RuntimeKubernetes
     Unmarshal_RuntimeInstance).

(** X10. The RuntimeSelector decoder returns no error exactly on null
    and on strings.  On every other node, a number, a boolean, a list or
    an object, it fails with the unknown-runtime-type error for the
    empty name and leaves the receiver as it was. *)
Theorem Runtime_accepted_iff (data : node)
    (v : Runtime RuntimeCloud RuntimeKubernetes RuntimeInstance) :
  ((Runtime_UnmarshalJSON' data v).2 = None <->
   data = JNull \/ exists s, data = JString s) /\
  ((Runtime_UnmarshalJSON' data v).2 = None \/
   Runtime_UnmarshalJSON' data v =
     (v, Some (fmt_Errorf "unknown runtime type: %s" [string_any EmptyString]))).
Proof.
  rewrite Runtime_UnmarshalJSON_cases.
  destruct data as [| b | lit | s | items | members]; cbn [snd];
    (split; [split; [try discriminate; eauto | intros [? | [? ?]]; try discriminate; reflexivity]
            | auto]).
Qed.

(** X11. No node makes the RuntimeSelector decoder populate a slot: the
    receiver comes out either as it went in or with all of cloud,
    kubernetes and vm empty and shell false.  None of the four shorthand
    cases and no key of an object ever stores anything. *)
Theorem Runtime_never_populates (data : node)
    (v : Runtime RuntimeCloud RuntimeKubernetes RuntimeInstance) :
  (Runtime_UnmarshalJSON' data v).1 = v \/
  (Runtime_UnmarshalJSON' data v).1 =
    {| Cloud := None; Kubernetes := None; VM := None; Shell := false |}.
Proof.
  rewrite Runtime_UnmarshalJSON_cases. destruct data; cbn [fst]; auto.
Qed.

(** X13. Decoding is idempotent for all six decoders: decoding the same
    node a second time, into the receiver the first decoding left,
    returns the same receiver and the same error as the first. *)
Theorem decoders_idempotent (data : node) :
  (forall s0, StringorInt_UnmarshalJSON data (StringorInt_UnmarshalJSON data s0).1 =
              StringorInt_UnmarshalJSON data s0) /\
  (forall s0, MemStringorInt_UnmarshalJSON data (MemStringorInt_UnmarshalJSON data s0).1 =
              MemStringorInt_UnmarshalJSON data s0) /\
  (forall r, Stringorslice_UnmarshalJSON data (Stringorslice_UnmarshalJSON data r).1 =
             Stringorslice_UnmarshalJSON data r) /\
  (forall r, Durationorslice_UnmarshalJSON ParseDuration data
               (Durationorslice_UnmarshalJSON ParseDuration data r).1 =
             Durationorslice_UnmarshalJSON ParseDuration data r) /\
  (forall v, Runtime_UnmarshalJSON' data (Runtime_UnmarshalJSON' data v).1 =
             Runtime_UnmarshalJSON' data v) /\
  (forall v, Workspace_UnmarshalJSON data (Workspace_UnmarshalJSON data v).1 =
             Workspace_UnmarshalJSON data v).
Proof.
  destruct (StringorInt_outcome data) as [o1 H1].
  destruct (MemStringorInt_outcome data) as [o2 H2].
  destruct (Stringorslice_outcome data) as [o3 H3].
  destruct (Durationorslice_outcome data) as [o4 H4].
  split; [exact (outcome_idempotent _ o1 H1) |].
  split; [exact (outcome_idempotent _ o2 H2) |].
  split; [exact (outcome_idempotent _ o3 H3) |].
  split; [exact (outcome_idempotent _ o4 H4) |].
  split; intros v.
  - rewrite !Runtime_UnmarshalJSON_cases. destruct data; reflexivity.
  - rewrite !Workspace_UnmarshalJSON_cases. destruct data; reflexivity.
Qed.

End receiver_facts.

(** X12. Every node that is neither a boolean nor null makes the
    WorkspaceSelector decoder return no error, set [disabled] to true
    and keep the receiver's path: an object disables the workspace
    whatever its members say, and its path member is never stored. *)
Theorem Workspace_non_boolean_disables (v : Workspace) :
  (forall members, Workspace_UnmarshalJSON (JObject members) v =
                   ({| Disabled := true; Path := Path v |}, None)) /\
  (forall items, Workspace_UnmarshalJSON (JArray items) v =
                 ({| Disabled := true; Path := Path v |}, None)) /\
  (forall s, Workspace_UnmarshalJSON (JString s) v =
             ({| Disabled := true; Path := Path v |}, None)) /\
  (forall lit, Workspace_UnmarshalJSON (JNumber lit) v =
               ({| Disabled := true; Path := Path v |}, None)).
Proof. repeat split; intros; apply Workspace_UnmarshalJSON_cases. Qed.

(** ** The first item of a list that is no duration *)

Lemma strings_fit_float64 (l : list string) :
  forallb json.numbers_fit_float64 (JString <$> l) = true.
Proof. induction l as [| s l IH]; [reflexivity | exact IH]. Qed.

(** X14. A list node whose first items are strings the duration parser
    takes, followed by an item that is not (a string the parser rejects,
    a number, a boolean, null, a list or an object), makes the
    DurationOrList decoder fail with the error that carries that first
    bad item, whatever comes after it, and leave the receiver as it was;
    the items before it are not returned.  The numbers from that item on
    are to fit a float64. *)
Theorem Durationorslice_first_bad_item
    (ParseDuration : string -> Z * option error)
    (l1 : list string) (ds : list Z) (x : node) (rest : list node) (r : slice Z) :
  Forall2 (fun s d => ParseDuration s = (d, None)) l1 ds ->
  (forall s d, x = JString s -> ParseDuration s <> (d, None)) ->
  forallb json.numbers_fit_float64 (x :: rest) = true ->
  Durationorslice_UnmarshalJSON ParseDuration (JArray ((JString <$> l1) ++ x :: rest)%list) r =
    (r, Some (fmt_Errorf "cannot unmarshal %v into type duration" [(json.valueInterface x).1])).
Proof.
  intros Hl1 Hx Hfit. unfold Durationorslice_UnmarshalJSON.
  cbn [json.Unmarshal_int64 json.Unmarshal_slice_any json.describe].
  assert (Hok : (json.Unmarshal_slice_any (JArray ((JString <$> l1) ++ x :: rest)%list)
                   nil_slice).2 = None).
  { apply Unmarshal_slice_any_no_error. rewrite forallb_app, strings_fit_float64. exact Hfit. }
  cbn [json.Unmarshal_slice_any] in Hok.
  destruct (json.arrayInterface _) as [vs e] eqn:Harr. cbn [snd] in Hok. subst e.
  apply arrayInterface_values in Harr. subst vs.
  rewrite fmap_app, <- list_fmap_compose, fmap_cons.
  change ((λ x0 : node, (json.valueInterface x0).1) ∘ JString) with string_any.
  unfold toDurations, len, elems.
  rewrite length_app. cbn [length]. rewrite Nat.add_succ_r. cbn [Nat.eqb].
  rewrite toDurations_loop_stops; [reflexivity | |].
  - apply strings_convert in Hl1. clear -Hl1.
    induction Hl1 as [| v d vs ds Hv _ IH]; constructor; [rewrite Hv; eauto | exact IH].
  - destruct (convert_element ParseDuration (json.valueInterface x).1) as [d |] eqn:Hconv;
      [| reflexivity].
    apply valueInterface_converts in Hconv as (s & -> & Hs).
    destruct (Hx s d eq_refl Hs).
Qed.

Lemma Durationorslice_first_bad_item_witness :
  Forall2 (fun s d => ParseDuration_1s s = (d, None)) ["1s"] [1000000000] /\
  (forall s d, JString "soon" = JString s -> ParseDuration_1s s <> (d, None)) /\
  forallb json.numbers_fit_float64 [JString "soon"; JNumber "5"] = true /\
  Durationorslice_UnmarshalJSON ParseDuration_1s
    (JArray [JString "1s"; JString "soon"; JNumber "5"]) (mk_slice [7]) =
    (mk_slice [7],
     Some (fmt_Errorf "cannot unmarshal %v into type duration" [string_any "soon"])).
Proof.
  assert (H1 : Forall2 (fun s d => ParseDuration_1s s = (d, None)) ["1s"] [1000000000])
    by (repeat constructor).
  assert (H2 : forall s d, JString "soon" = JString s -> ParseDuration_1s s <> (d, None))
    by (intros s d [= <-]; discriminate).
  assert (H3 : forallb json.numbers_fit_float64 [JString "soon"; JNumber "5"] = true)
    by reflexivity.
  split; [exact H1 |]. split; [exact H2 |]. split; [exact H3 |].
  exact (Durationorslice_first_bad_item ParseDuration_1s ["1s"] [1000000000]
           (JString "soon") [JNumber "5"] (mk_slice [7]) H1 H2 H3).
Defined.

(** ** The errors the scalar and list decoders return *)

(** X15. The errors of the four scalar and list decoders are their own
    last error, or the error of the parser or helper they call: the
    integer parser's error for a string node, the size parser's error
    for a string node, the error of [toStrings] that carries an element
    that is no string, the error of [toDurations] that carries an
    element.  The error [json.Unmarshal] reports for a node of the wrong
    shape is never returned. *)
Theorem decoder_errors (ParseDuration : string -> Z * option error) (data : node) (e : error) :
  (forall s0 p, StringorInt_UnmarshalJSON data s0 = (p, Some e) ->
     e = errors_New "failed to unmarshal string or number" \/
     exists s k, data = JString s /\ e = NumError "ParseInt" s k) /\
  (forall s0 p, MemStringorInt_UnmarshalJSON data s0 = (p, Some e) ->
     e = errors_New "failed to unmarshal memory string to integer" \/
     exists s v, data = JString s /\ units.RAMInBytes s = (v, Some e)) /\
  (forall r p, Stringorslice_UnmarshalJSON data r = (p, Some e) ->
     e = errors_New "failed to unmarshal string or string array" \/
     exists v, (forall x, v <> string_any x) /\
       e = fmt_Errorf "cannot unmarshal %v of type %T into a string value" [v; v]) /\
  (forall r p, Durationorslice_UnmarshalJSON ParseDuration data r = (p, Some e) ->
     e = errors_New "failed to unmarshal duration string or duration array" \/
     exists v, convert_element ParseDuration v = None /\
       e = fmt_Errorf "cannot unmarshal %v into type duration" [v]).
Proof.
  split; [| split; [| split]].
  - intros s0 p. unfold StringorInt_UnmarshalJSON.
    destruct data as [| b | lit | s | items | members];
      cbn [json.Unmarshal_int64 json.Unmarshal_string json.describe];
      try discriminate; try (intros [= <- <-]; left; reflexivity).
    + destruct (strconv.ParseInt lit) as [v [e2 |]];
        [intros [= <- <-]; left; reflexivity | discriminate].
    + destruct (strconv.ParseInt s) as [v [e2 |]] eqn:Hparse; [| discriminate].
      intros [= <- <-]. right. apply ParseInt_error in Hparse as [k ->]. eauto.
  - intros s0 p. unfold MemStringorInt_UnmarshalJSON.
    destruct data as [| b | lit | s | items | members];
      cbn [json.Unmarshal_int64 json.Unmarshal_string json.describe];
      try discriminate; try (intros [= <- <-]; left; reflexivity).
    + destruct (strconv.ParseInt lit) as [v [e2 |]];
        [intros [= <- <-]; left; reflexivity | discriminate].
    + destruct (units.RAMInBytes s) as [v [e2 |]] eqn:Hram; [| discriminate].
      intros [= <- <-]. right. eauto.
  - intros r p. unfold Stringorslice_UnmarshalJSON.
    destruct (json.Unmarshal_string data zero) as [s [e1 |]]; [| discriminate].
    destruct (json.Unmarshal_slice_any data nil_slice) as [vs [e2 |]];
      [intros [= <- <-]; left; reflexivity |].
    destruct vs as [| vs]; [discriminate |].
    destruct (toStrings (mk_slice vs)) as [q [e3 |]] eqn:Hto; [| discriminate].
    intros [= <- <-]. right.
    apply toStrings_list_failure in Hto as (_ & l1 & v & rest & _ & Hv & ->). eauto.
  - intros r p. unfold Durationorslice_UnmarshalJSON.
    destruct (json.Unmarshal_int64 "time.Duration" data zero) as [n [e1 |]]; [| discriminate].
    destruct (json.Unmarshal_slice_any data nil_slice) as [vs [e2 |]];
      [intros [= <- <-]; left; reflexivity |].
    destruct vs as [| vs]; [discriminate |].
    destruct (toDurations ParseDuration (mk_slice vs)) as [q [e3 |]] eqn:Hto; [| discriminate].
    intros [= <- <-]. right.
    apply toDurations_list_failure in Hto as (_ & l1 & v & rest & _ & _ & Hv & ->). eauto.
Qed.

(** X16. A list node that holds, at any depth, a number too large for a
    float64 is rejected by both list decoders with their last error,
    whatever its other items are, strings or not; the receiver is left
    as it was. *)
Theorem list_with_overflowing_number
    (ParseDuration : string -> Z * option error) (l : list node)
    (r : slice string) (r' : slice Z) :
  forallb json.numbers_fit_float64 l = false ->
  Stringorslice_UnmarshalJSON (JArray l) r =
    (r, Some (errors_New "failed to unmarshal string or string array")) /\
  Durationorslice_UnmarshalJSON ParseDuration (JArray l) r' =
    (r', Some (errors_New "failed to unmarshal duration string or duration array")).
Proof.
  intros Hfit.
  assert (Herr : (json.Unmarshal_slice_any (JArray l) nil_slice).2 <> None).
  { intros Hok. apply Unmarshal_slice_any_no_error in Hok. congruence. }
  unfold Stringorslice_UnmarshalJSON, Durationorslice_UnmarshalJSON.
  cbn [json.Unmarshal_string json.Unmarshal_int64 json.describe].
  destruct (json.Unmarshal_slice_any (JArray l) nil_slice) as [vs [e |]];
    [split; reflexivity | exfalso; apply Herr; reflexivity].
Qed.

Lemma list_with_overflowing_number_witness :
  forallb json.numbers_fit_float64 [JString "a"; JArray [JNumber "1e999"]] = false /\
  Stringorslice_UnmarshalJSON (JArray [JString "a"; JArray [JNumber "1e999"]])
    (mk_slice ["old"]) =
    (mk_slice ["old"], Some (errors_New "failed to unmarshal string or string array")) /\
  Durationorslice_UnmarshalJSON ParseDuration_1s
    (JArray [JString "a"; JArray [JNumber "1e999"]]) (mk_slice [7]) =
    (mk_slice [7], Some (errors_New "failed to unmarshal duration string or duration array")).
Proof.
  assert (H : forallb json.numbers_fit_float64 [JString "a"; JArray [JNumber "1e999"]] = false)
    by (vm_compute; reflexivity).
  split; [exact H |].
  exact (list_with_overflowing_number ParseDuration_1s
           [JString "a"; JArray [JNumber "1e999"]] (mk_slice ["old"]) (mk_slice [7]) H).
Defined.
